(** * addVideosToMusic_Fitness: a shallow embedding

    The script joins video clips, lays a music track over them and fades the
    picture in and out.  All media work is done by two external programs,
    [ffprobe] and [ffmpeg]; the script decides what to ask of them.

    Modelling choices, used throughout:
    - a [Path] is the text pathlib gives for it on Windows (the script's
      directories are Windows paths), with backslash as the separator;
    - a Python number keeps its int/float tag ([pynum]); a float is modelled
      by the rational it denotes, so rounding, infinities and NaN are outside
      the model;
    - Python library calls that are not re-implemented here (float(), str() of
      a float, eval() outside integer fractions) and the behaviour of the
      external programs are fields of an environment [Env];
    - console output and the progress bar do not influence any value or any
      external call and are left out. *)

From Stdlib Require Import List String Ascii ZArith QArith Qcanon Bool Arith Lia.
From Stdlib Require Import Sorted Permutation.
From Stdlib Require DecimalString.
Import ListNotations.
Open Scope nat_scope.
Open Scope list_scope.
Open Scope string_scope.

(** ** Exceptions and results *)

Inductive exn : Set :=
| RuntimeError
| ZeroDivisionError
| AttributeError
| TypeError
| ValueError
| SyntaxError
| OSError.

Inductive result (A : Type) : Type :=
| Ok (a : A)
| Raise (e : exn).
Arguments Ok {A} a.
Arguments Raise {A} e.

Definition rbind {A B} (r : result A) (k : A -> result B) : result B :=
  match r with
  | Ok a => k a
  | Raise e => Raise e
  end.

Declare Scope result_scope.
Delimit Scope result_scope with result.
Notation "'let?' x ':=' r 'in' k" := (rbind r (fun x => k))
  (at level 10, x pattern, r at level 100, k at level 200) : result_scope.

(** ** Text helpers *)

Definition backslash : ascii := ascii_of_nat 92.
Definition slash : ascii := ascii_of_nat 47.
Definition dot : ascii := ascii_of_nat 46.
Definition quote : ascii := ascii_of_nat 39.
Definition newline : ascii := ascii_of_nat 10.

Definition char (c : ascii) : string := String c EmptyString.

Fixpoint map_string (f : ascii -> ascii) (s : string) : string :=
  match s with
  | EmptyString => EmptyString
  | String c t => String (f c) (map_string f t)
  end.

(** str.lower(), on the ASCII letters. *)
Definition lower_ascii (c : ascii) : ascii :=
  let n := nat_of_ascii c in
  if (65 <=? n)%nat && (n <=? 90)%nat then ascii_of_nat (n + 32) else c.

Definition lower (s : string) : string := map_string lower_ascii s.

(** str.rfind(c), counting positions from [i]. *)
Fixpoint rfind_from (c : ascii) (s : string) (i : nat) : option nat :=
  match s with
  | EmptyString => None
  | String a t =>
      match rfind_from c t (S i) with
      | Some j => Some j
      | None => if Ascii.eqb a c then Some i else None
      end
  end.

Definition rfind (c : ascii) (s : string) : option nat := rfind_from c s 0.

Definition is_digit (c : ascii) : bool :=
  let n := nat_of_ascii c in (48 <=? n)%nat && (n <=? 57)%nat.

Fixpoint all_chars (p : ascii -> bool) (s : string) : bool :=
  match s with
  | EmptyString => true
  | String c t => p c && all_chars p t
  end.

Fixpoint digits_value (acc : N) (s : string) : N :=
  match s with
  | EmptyString => acc
  | String c t => digits_value (acc * 10 + (N.of_nat (nat_of_ascii c) - 48)) t
  end.

(** A Python decimal integer literal without underscores: a nonzero digit
    followed by digits, or a run of zeros. *)
Definition decimal_literal (s : string) : option N :=
  match s with
  | EmptyString => None
  | String c _ =>
      if all_chars is_digit s
         && (negb (Ascii.eqb c "0") || all_chars (Ascii.eqb "0"%char) s)
      then Some (digits_value 0 s) else None
  end.

(** The text before and after the first [c], when there is one. *)
Fixpoint cut (c : ascii) (s : string) : option (string * string) :=
  match s with
  | EmptyString => None
  | String a t =>
      if Ascii.eqb a c then Some (EmptyString, t)
      else match cut c t with
           | Some (l, r) => Some (String a l, r)
           | None => None
           end
  end.

(** ** Numbers and values *)

Inductive pynum : Set :=
| PyInt (z : Z)
| PyFloat (q : Qc).

Definition num_val (n : pynum) : Qc :=
  match n with
  | PyInt z => Q2Qc (inject_Z z)
  | PyFloat q => q
  end.

Definition Qc_eqb (x y : Qc) : bool := Qeq_bool x y.

Definition Qc_ltb (x y : Qc) : bool :=
  match (x ?= y)%Qc with
  | Lt => true
  | _ => false
  end.

(** [a == b] on numbers: by value, whatever the tags. *)
Definition num_eqb (a b : pynum) : bool := Qc_eqb (num_val a) (num_val b).

(** Truthiness of a number. *)
Definition num_truthy (n : pynum) : bool := negb (Qc_eqb (num_val n) 0%Qc).

(** [max(a, b)]: the first argument unless the second is greater. *)
Definition py_max (a b : pynum) : pynum :=
  if Qc_ltb (num_val a) (num_val b) then b else a.

(** What json.loads can produce, and None. *)
#[warnings="-register-all"]
Inductive pyval : Type :=
| PNone
| PBool (b : bool)
| PNum (n : pynum)
| PStr (s : string)
| PList (l : list pyval)
| PDict (d : list (string * pyval)).

(** dict.get(key, default) on a parsed JSON object. *)
Fixpoint obj_get (key : string) (d : list (string * pyval)) (default : pyval) : pyval :=
  match d with
  | [] => default
  | (k, v) :: t => if String.eqb k key then v else obj_get key t default
  end.

(** [v.get(key, default)]: only a dict has the method. *)
Definition py_get (v : pyval) (key : string) (default : pyval) : result pyval :=
  match v with
  | PDict d => Ok (obj_get key d default)
  | _ => Raise AttributeError
  end.

(** ** Paths *)

Definition Path := string.

Fixpoint split_on (c : ascii) (s : string) : list string :=
  match s with
  | EmptyString => [EmptyString]
  | String a t =>
      if Ascii.eqb a c then EmptyString :: split_on c t
      else match split_on c t with
           | [] => [char a]
           | h :: r => String a h :: r
           end
  end.

(** Path.name: the final component. *)
Definition name (p : Path) : string := last (split_on backslash p) EmptyString.

(** Path.suffix and Path.stem, on the last dot of the name when it is neither
    the first nor the last character. *)
Definition suffix (p : Path) : string :=
  let n := name p in
  match rfind dot n with
  | Some i =>
      if (0 <? i)%nat && (i <? String.length n - 1)%nat
      then substring i (String.length n - i) n else EmptyString
  | None => EmptyString
  end.

Definition stem (p : Path) : string :=
  let n := name p in
  match rfind dot n with
  | Some i =>
      if (0 <? i)%nat && (i <? String.length n - 1)%nat
      then substring 0 i n else n
  | None => n
  end.

(** Path.as_posix(): forward slashes for the separators. *)
Definition as_posix (p : Path) : string :=
  map_string (fun c => if Ascii.eqb c backslash then slash else c) p.

(** [dir / child]. *)
Definition joinpath (dir : Path) (child : string) : Path :=
  dir ++ char backslash ++ child.

(** ** Configuration *)

Definition VIDEO_DIR : Path := "C:\Users\Ryzen 5500\Desktop\Tryhard songs\Training".
Definition MUSIC_DIR : Path := joinpath VIDEO_DIR "Music".
Definition OUTPUT_PATH : Path := joinpath VIDEO_DIR "final_video_fast.mp4".
Definition TRANSCODED_DIR : Path := joinpath VIDEO_DIR "transcoded".

Definition VIDEO_EXTENSIONS : list string :=
  [".mp4"; ".mov"; ".mkv"; ".avi"; ".m4a"; ".3gp"; ".3g2"].
Definition AUDIO_EXTENSIONS : list string := [".mp3"; ".wav"; ".m4a"; ".aac"].
Definition FADE_IN_SECONDS : Qc := Q2Qc (1 # 2).
Definition FADE_OUT_SECONDS : Qc := Q2Qc (1 # 1).

(** ** The outside world *)

(** The file system: the text of each file that exists. *)
Definition filesystem := Path -> option string.

Definition path_exists (fs : filesystem) (p : Path) : bool :=
  match fs p with
  | Some _ => true
  | None => false
  end.

Definition write_file (fs : filesystem) (p : Path) (text : string) : filesystem :=
  fun q => if String.eqb q p then Some text else fs q.

(** What ffprobe printed, as json.loads sees it: nothing, text that does not
    parse, or text that parses to [data]. *)
Inductive probe_text : Type :=
| Blank
| Garbage
| Document (data : pyval).

(** subprocess.run either raises or completes with an exit status. *)
Inductive probe_outcome : Type :=
| ProbeNotRun
| ProbeExited (returncode : Z) (stdout : probe_text).

(** subprocess.Popen either raises or the process ends with an exit status. *)
Inductive tool_exit : Set :=
| NotStarted
| Exited (returncode : Z).

Record Env : Type := {
  (** ffprobe on a file *)
  ffprobe : filesystem -> Path -> probe_outcome;
  (** ffmpeg on an argument list: how it ends and what it leaves on disk *)
  ffmpeg : list string -> filesystem -> tool_exit * filesystem;
  (** Path.iterdir() *)
  iterdir : filesystem -> Path -> result (list Path);
  (** eval() on text that is not an integer or a fraction of integers *)
  eval_other : string -> result pynum;
  (** float(x); None when it raises *)
  py_float : pyval -> option Qc;
  (** str(x) of a float *)
  float_str : Qc -> string
}.

(** ** Media analysis *)

(** The dict built by get_media_info has at most these six keys; a field is
    [None] when its key is absent. *)
Record MediaInfo : Type := {
  duration : option Qc;
  video_codec : option pyval;
  width : option pyval;
  height : option pyval;
  fps : option pynum;
  audio_codec : option pyval
}.

(** [{}] *)
Definition empty_info : MediaInfo :=
  {| duration := None; video_codec := None; width := None; height := None;
     fps := None; audio_codec := None |}.

(** [{"duration": 0.0}] *)
Definition initial_info : MediaInfo :=
  {| duration := Some 0%Qc; video_codec := None; width := None; height := None;
     fps := None; audio_codec := None |}.

(** info.get("fps", 0) *)
Definition info_fps (info : MediaInfo) : pynum :=
  match fps info with
  | Some r => r
  | None => PyInt 0
  end.

(** info.get("duration", 0.0) *)
Definition info_duration (info : MediaInfo) : Qc :=
  match duration info with
  | Some d => d
  | None => 0%Qc
  end.

(** Iterating a value in a for loop. *)
Definition py_iter (v : pyval) : result (list pyval) :=
  match v with
  | PList l => Ok l
  | PDict d => Ok (map (fun kv => PStr (fst kv)) d)
  | PStr s => Ok (map (fun c => PStr (char c)) (list_ascii_of_string s))
  | _ => Raise TypeError
  end.

Section Program.

Variable E : Env.

Local Open Scope result_scope.

(** eval() of text: an integer literal is an int, a quotient of two integer
    literals is a float or a division by zero. *)
Definition py_eval (s : string) : result pynum :=
  match cut slash s with
  | Some (a, b) =>
      match decimal_literal a, decimal_literal b with
      | Some n, Some d =>
          if (d =? 0)%N then Raise ZeroDivisionError
          else Ok (PyFloat (Q2Qc (Z.of_N n # Z.to_pos (Z.of_N d))))
      | _, _ => eval_other E s
      end
  | None =>
      match decimal_literal s with
      | Some n => Ok (PyInt (Z.of_N n))
      | None => eval_other E s
      end
  end.

(** eval() of a value: only text can be evaluated. *)
Definition eval_value (v : pyval) : result pynum :=
  match v with
  | PStr s => py_eval s
  | _ => Raise TypeError
  end.

(** One turn of the loop over the streams. *)
Definition scan_stream (info : MediaInfo) (stream : pyval) : result MediaInfo :=
  let? codec := py_get stream "codec_type" PNone in
  match codec with
  | PStr kind =>
      if String.eqb kind "video" then
        let? codec_name := py_get stream "codec_name" PNone in
        let? w := py_get stream "width" PNone in
        let? h := py_get stream "height" PNone in
        let? rate := py_get stream "r_frame_rate" (PStr "0/1") in
        let? f := eval_value rate in
        Ok {| duration := duration info; video_codec := Some codec_name;
              width := Some w; height := Some h; fps := Some f;
              audio_codec := audio_codec info |}
      else if String.eqb kind "audio" then
        let? codec_name := py_get stream "codec_name" PNone in
        Ok {| duration := duration info; video_codec := video_codec info;
              width := width info; height := height info; fps := fps info;
              audio_codec := Some codec_name |}
      else Ok info
  | _ => Ok info
  end.

Fixpoint scan_streams (info : MediaInfo) (streams : list pyval) : result MediaInfo :=
  match streams with
  | [] => Ok info
  | stream :: rest =>
      let? info' := scan_stream info stream in
      scan_streams info' rest
  end.

(** float(data.get("format", {}).get("duration", 0)), [None] when any step of
    it raises. *)
Definition read_duration (data : pyval) : option Qc :=
  match py_get data "format" (PDict []) with
  | Ok fmt =>
      match py_get fmt "duration" (PNum (PyInt 0)) with
      | Ok d => py_float E d
      | Raise _ => None
      end
  | Raise _ => None
  end.

Definition get_media_info (fs : filesystem) (file_path : Path) : result MediaInfo :=
  match ffprobe E fs file_path with
  | ProbeNotRun => Ok empty_info
  | ProbeExited returncode stdout =>
      if negb (returncode =? 0)%Z then Ok empty_info
      else
        match stdout with
        | Blank => Ok empty_info
        | Garbage => Ok empty_info
        | Document data =>
            let? streams := py_get data "streams" (PList []) in
            let? items := py_iter streams in
            let? info := scan_streams initial_info items in
            match read_duration data with
            | Some d =>
                Ok {| duration := Some d; video_codec := video_codec info;
                      width := width info; height := height info;
                      fps := fps info; audio_codec := audio_codec info |}
            | None => Ok info
            end
        end
  end.

Definition get_duration (fs : filesystem) (media_file : Path) : result Qc :=
  let? info := get_media_info fs media_file in
  Ok (info_duration info).

(** ** Frame-rate analysis *)

(** frame_rate_counts: a dict from rate to count, in insertion order. *)
Definition histogram := list (pynum * nat).

Fixpoint counts_get (k : pynum) (d : histogram) (default : nat) : nat :=
  match d with
  | [] => default
  | (k', v) :: t => if num_eqb k' k then v else counts_get k t default
  end.

(** [d[k] = v]: an existing key keeps its place, a new one goes last. *)
Fixpoint counts_set (k : pynum) (v : nat) (d : histogram) : histogram :=
  match d with
  | [] => [(k, v)]
  | (k', v') :: t =>
      if num_eqb k' k then (k', v) :: t else (k', v') :: counts_set k v t
  end.

Fixpoint tally (fs : filesystem) (video_files : list Path) (counts : histogram)
  : result histogram :=
  match video_files with
  | [] => Ok counts
  | video :: rest =>
      let? info := get_media_info fs video in
      let f := info_fps info in
      tally fs rest (counts_set f (counts_get f counts 0 + 1) counts)
  end.

(** max(items, key=key) after its first item: a later item wins only when its
    key is strictly greater. *)
Fixpoint max_by {A : Type} (key : A -> nat) (best : A) (items : list A) : A :=
  match items with
  | [] => best
  | x :: t => if (key best <? key x)%nat then max_by key x t else max_by key best t
  end.

Definition py_max_by {A : Type} (key : A -> nat) (items : list A) : result A :=
  match items with
  | [] => Raise ValueError
  | x :: t => Ok (max_by key x t)
  end.

Definition find_majority_frame_rate (fs : filesystem) (video_files : list Path)
  : result (bool * pynum) :=
  if (List.length video_files <? 2)%nat then
    match video_files with
    | video :: _ =>
        let? info := get_media_info fs video in
        Ok (true, info_fps info)
    | [] => Ok (true, PyInt 0)
    end
  else
    let? frame_rate_counts := tally fs video_files [] in
    match frame_rate_counts with
    | [] => Ok (true, PyInt 0)
    | _ :: _ =>
        let? majority :=
          py_max_by (fun k => counts_get k frame_rate_counts 0)
                    (map fst frame_rate_counts) in
        Ok ((List.length frame_rate_counts =? 1)%nat, majority)
    end.

(** ** Running ffmpeg *)

(** What a run can change: the disk, and the list of ffmpeg command lines
    launched so far, oldest first. *)
Record world : Type := {
  disk : filesystem;
  invocations : list (list string)
}.

Definition M (A : Type) : Type := world -> result A * world.

Definition ret {A} (a : A) : M A := fun w => (Ok a, w).

Definition bind {A B} (m : M A) (k : A -> M B) : M B :=
  fun w =>
    match m w with
    | (Ok a, w') => k a w'
    | (Raise e, w') => (Raise e, w')
    end.

(** A call that only looks at the disk. *)
Definition look {A} (f : filesystem -> result A) : M A :=
  fun w => (f (disk w), w).

(** [try: body except RuntimeError: handler] *)
Definition except_RuntimeError {A} (body handler : M A) : M A :=
  fun w =>
    match body w with
    | (Raise RuntimeError, w') => handler w'
    | outcome => outcome
    end.

Notation "x <- m ;; k" := (bind m (fun x => k))
  (at level 61, m at next level, right associativity).
Notation "m ;;; k" := (bind m (fun _ => k))
  (at level 61, right associativity).

(** run_ffmpeg: launch the command, wait, raise RuntimeError when it could
    not be started or ended with a nonzero status.  [total_duration] only
    feeds the progress bar. *)
Definition run_ffmpeg (commands : list string) (total_duration : Qc) : M unit :=
  fun w =>
    let (ending, disk') := ffmpeg E commands (disk w) in
    let w' := {| disk := disk'; invocations := (invocations w ++ [commands])%list |} in
    match ending with
    | NotStarted => (Raise RuntimeError, w')
    | Exited returncode =>
        if (returncode =? 0)%Z then (Ok tt, w') else (Raise RuntimeError, w')
    end.

(** ** Video processing *)

(** str(x) and f"{x}" of a number. *)
Definition num_str (n : pynum) : string :=
  match n with
  | PyInt z => DecimalString.NilZero.string_of_int (Z.to_int z)
  | PyFloat q => float_str E q
  end.

(** [if target_fps]: neither None nor zero. *)
Definition wanted_fps (target_fps : option pynum) : option pynum :=
  match target_fps with
  | Some r => if num_truthy r then Some r else None
  | None => None
  end.

Definition transcode_output (input_file : Path) (target_fps : option pynum) : Path :=
  let fps_label :=
    match wanted_fps target_fps with
    | Some r => "_fps" ++ num_str r
    | None => ""
    end in
  joinpath TRANSCODED_DIR (stem input_file ++ "_h264" ++ fps_label ++ ".mp4").

Definition transcode_command (input_file : Path) (target_fps : option pynum)
  : list string :=
  (["ffmpeg"; "-y"; "-i"; input_file; "-c:v"; "h264_nvenc"]
   ++ match wanted_fps target_fps with
      | Some r => ["-r"; num_str r]
      | None => []
      end
   ++ ["-c:a"; "aac"; "-b:a"; "128k"; transcode_output input_file target_fps])%list.

Definition transcode_video (input_file : Path) (target_fps : option pynum) : M Path :=
  fun w =>
    let output_file := transcode_output input_file target_fps in
    if path_exists (disk w) output_file then (Ok output_file, w)
    else (run_ffmpeg (transcode_command input_file target_fps) 0%Qc ;;;
          ret output_file) w.

(** One file.write call of the manifest loop. *)
Definition manifest_line (video : Path) : string :=
  "file '" ++ as_posix video ++ "'" ++ char newline.

Definition concat_list_path : Path := joinpath TRANSCODED_DIR "concat_list.txt".

(** The manifest is opened for writing, so what was there is replaced by the
    lines written one after the other. *)
Definition create_concatenation_list (video_files : list Path) : M Path :=
  fun w =>
    let text := fold_left (fun written video => written ++ manifest_line video)
                          video_files "" in
    (Ok concat_list_path,
     {| disk := write_file (disk w) concat_list_path text;
        invocations := invocations w |}).

(** ** Merging *)

(** str(music_file) *)
Definition optional_path_str (p : option Path) : string :=
  match p with
  | Some q => q
  | None => "None"
  end.

Definition fade_out_start (music_duration : Qc) : pynum :=
  py_max (PyInt 0) (PyFloat (music_duration - FADE_OUT_SECONDS)%Qc).

Definition filter_chain (music_duration : Qc) : string :=
  "[0:v]trim=duration=" ++ float_str E music_duration ++ ","
  ++ "fade=t=in:st=0:d=" ++ float_str E FADE_IN_SECONDS ++ ","
  ++ "fade=t=out:st=" ++ num_str (fade_out_start music_duration)
  ++ ":d=" ++ float_str E FADE_OUT_SECONDS ++ "[v]".

(** The argument list merge_videos_with_music builds. *)
Definition merge_command (concatenation_list : Path) (music_file : option Path)
    (output_file : Path) (use_hardware_encoding has_music : bool)
    (music_duration : Qc) : list string :=
  (["ffmpeg"; "-y"; "-f"; "concat"; "-safe"; "0"; "-i"; concatenation_list]
   ++ (if has_music && Qc_ltb 0%Qc music_duration then
         ["-i"; optional_path_str music_file]
         ++ (if use_hardware_encoding then
               ["-filter_complex"; filter_chain music_duration;
                "-map"; "[v]"; "-map"; "1:a";
                "-t"; float_str E music_duration;
                "-c:v"; "h264_nvenc"; "-c:a"; "aac"; "-preset"; "p5"]
             else
               ["-filter_complex"; filter_chain music_duration;
                "-map"; "[v]"; "-map"; "1:a";
                "-t"; float_str E music_duration;
                "-c:v"; "copy"; "-c:a"; "aac"])
       else
         (if has_music then
            ["-i"; optional_path_str music_file;
             "-map"; "0:v"; "-map"; "1:a"; "-shortest"]
          else [])
         ++ (if use_hardware_encoding then
               ["-c:v"; "h264_nvenc"; "-c:a"; "aac"; "-preset"; "p5"]
             else ["-c:v"; "copy"; "-c:a"; "aac"]))
   ++ [output_file])%list.

(** [music_file and music_file.exists()] *)
Definition music_present (fs : filesystem) (music_file : option Path) : bool :=
  match music_file with
  | Some m => path_exists fs m
  | None => false
  end.

Definition merge_videos_with_music (concatenation_list : Path)
    (music_file : option Path) (output_file : Path)
    (use_hardware_encoding : bool) : M unit :=
  fun w =>
    let has_music := music_present (disk w) music_file in
    (music_duration <-
       (if has_music
        then look (fun fs => get_duration fs (optional_path_str music_file))
        else ret 0%Qc) ;;
     run_ffmpeg
       (merge_command concatenation_list music_file output_file
                      use_hardware_encoding has_music music_duration)
       (if has_music then music_duration else 0%Qc)) w.

(** ** Main workflow *)

Definition member (s : string) (l : list string) : bool := existsb (String.eqb s) l.

Definition excluded_names : list string :=
  ["music.mp3"; "final_video_fast.mp4"; "final_video.mp4"].

Definition is_video (f : Path) : bool :=
  member (lower (suffix f)) VIDEO_EXTENSIONS && negb (member (name f) excluded_names).

Definition is_music (f : Path) : bool := member (lower (suffix f)) AUDIO_EXTENSIONS.

(** Windows paths compare without regard to case. *)
Definition path_leb (a b : Path) : bool := String.leb (lower a) (lower b).

Fixpoint insert_sorted (x : Path) (l : list Path) : list Path :=
  match l with
  | [] => [x]
  | y :: t => if path_leb x y then x :: l else y :: insert_sorted x t
  end.

(** sorted(paths): a stable sort. *)
Definition sorted (paths : list Path) : list Path := fold_right insert_sorted [] paths.

Definition discover_videos (entries : list Path) : list Path :=
  sorted (filter is_video entries).

Definition discover_music (entries : list Path) : list Path := filter is_music entries.

(** The block under [if is_compatible:]; its value is is_compatible
    afterwards. *)
Definition fast_path (videos : list Path) (music_file : Path) : M bool :=
  concat_list <- create_concatenation_list videos ;;
  except_RuntimeError
    (merge_videos_with_music concat_list (Some music_file) OUTPUT_PATH false ;;;
     ret true)
    (ret false).

(** The loop of the transcode path, with the list collected so far. *)
Fixpoint transcode_each (videos : list Path) (majority_fps : pynum)
    (transcoded : list Path) : M (list Path) :=
  match videos with
  | [] => ret transcoded
  | video :: rest =>
      info <- look (fun fs => get_media_info fs video) ;;
      let current_fps := info_fps info in
      let target := if num_eqb current_fps majority_fps then None
                    else Some majority_fps in
      transcoded' <-
        except_RuntimeError
          (output <- transcode_video video target ;;
           ret (transcoded ++ [output])%list)
          (ret transcoded) ;;
      transcode_each rest majority_fps transcoded'
  end.

(** The block under [if not is_compatible:]. *)
Definition transcode_path (videos : list Path) (music_file : Path)
    (majority_fps : pynum) : M unit :=
  transcoded <- transcode_each videos majority_fps [] ;;
  match transcoded with
  | [] => ret tt
  | _ :: _ =>
      concat_list <- create_concatenation_list transcoded ;;
      merge_videos_with_music concat_list (Some music_file) OUTPUT_PATH true
  end.

Definition main : M unit :=
  entries <- look (fun fs => iterdir E fs VIDEO_DIR) ;;
  let videos := discover_videos entries in
  match videos with
  | [] => ret tt
  | _ :: _ =>
      music_entries <- look (fun fs => iterdir E fs MUSIC_DIR) ;;
      match discover_music music_entries with
      | [] => ret tt
      | music_file :: _ =>
          analysis <- look (fun fs => find_majority_frame_rate fs videos) ;;
          let (compatible, majority_fps) := (analysis : bool * pynum) in
          is_compatible <-
            (if compatible then fast_path videos music_file else ret false) ;;
          if negb is_compatible
          then transcode_path videos music_file majority_fps
          else ret tt
      end
  end.

End Program.

(** ** Reading the manifest back *)

(** str.isspace(), on the ASCII characters. *)
Definition is_space (c : ascii) : bool :=
  let n := nat_of_ascii c in
  ((9 <=? n)%nat && (n <=? 13)%nat) || ((28 <=? n)%nat && (n <=? 32)%nat).

Fixpoint lstrip (s : string) : string :=
  match s with
  | EmptyString => EmptyString
  | String c t => if is_space c then lstrip t else s
  end.

Fixpoint rstrip (s : string) : string :=
  match s with
  | EmptyString => EmptyString
  | String c t =>
      match rstrip t with
      | EmptyString => if is_space c then EmptyString else char c
      | kept => String c kept
      end
  end.

(** str.strip() *)
Definition strip (s : string) : string := lstrip (rstrip s).

(** str.replace(old, new) for a nonempty [old], left to right; [skip] counts
    the characters of a match still to be passed over. *)
Fixpoint replace_from (old new : string) (skip : nat) (s : string) : string :=
  match s with
  | EmptyString => EmptyString
  | String c t =>
      match skip with
      | S k => replace_from old new k t
      | O =>
          if prefix old s
          then new ++ replace_from old new (String.length old - 1) t
          else String c (replace_from old new 0 t)
      end
  end.

(** str.replace("", new): [new] before every character and at the end. *)
Fixpoint intersperse (new s : string) : string :=
  match s with
  | EmptyString => new
  | String c t => new ++ String c (intersperse new t)
  end.

Definition replace (old new s : string) : string :=
  match old with
  | EmptyString => intersperse new s
  | String _ _ => replace_from old new 0 s
  end.

(** The lines a text file yields when iterated, each with its line break. *)
Fixpoint file_lines (text : string) : list string :=
  match text with
  | EmptyString => []
  | String c t =>
      if Ascii.eqb c newline then char newline :: file_lines t
      else match file_lines t with
           | [] => [char c]
           | l :: ls => String c l :: ls
           end
  end.

(** The text calculate_total_duration hands to Path() for one line. *)
Definition manifest_entry (line : string) : string :=
  strip (replace "'" "" (replace "file '" "" line)).

Section TotalDuration.

Variable E : Env.

(** Path(text): pathlib's parsing of a text into a path. *)
Variable Path_of_text : string -> Path.

(** The loop of calculate_total_duration, with the total so far. *)
Fixpoint add_durations (fs : filesystem) (lines : list string) (total : Qc)
  : result Qc :=
  match lines with
  | [] => Ok total
  | line :: rest =>
      if prefix "file '" line then
        (let? d := get_duration E fs (Path_of_text (manifest_entry line)) in
         add_durations fs rest (total + d)%Qc)%result
      else add_durations fs rest total
  end.

(** open() of a file that is not there raises. *)
Definition calculate_total_duration (concatenation_list : Path) (fs : filesystem)
  : result Qc :=
  match fs concatenation_list with
  | None => Raise OSError
  | Some text => add_durations fs (file_lines text) 0%Qc
  end.

End TotalDuration.

(** * Properties *)

(** ** Vocabulary *)

(** The frame rates the analyzer reads off a list of files, in order; it is
    there only when every probe returns. *)
Fixpoint probed_rates (E : Env) (fs : filesystem) (video_files : list Path)
  : result (list pynum) :=
  match video_files with
  | [] => Ok []
  | video :: rest =>
      (let? info := get_media_info E fs video in
       let? rates := probed_rates E fs rest in
       Ok (info_fps info :: rates))%result
  end.

(** How many entries of [rates] equal [r]. *)
Fixpoint occurrences (r : pynum) (rates : list pynum) : nat :=
  match rates with
  | [] => 0
  | x :: t => (if num_eqb x r then 1 else 0) + occurrences r t
  end.

(** The update of frame_rate_counts for one rate. *)
Definition add_rate (counts : histogram) (r : pynum) : histogram :=
  counts_set r (counts_get r counts 0 + 1) counts.

(** The pieces of a text between line breaks; the piece after the last line
    break is dropped when it is empty. *)
Fixpoint lines_of (text : string) : list string :=
  match text with
  | EmptyString => []
  | String c t =>
      if Ascii.eqb c newline then EmptyString :: lines_of t
      else match lines_of t with
           | [] => [char c]
           | l :: ls => String c l :: ls
           end
  end.

(** A text without a line break in it. *)
Definition single_line (s : string) : bool :=
  all_chars (fun c => negb (Ascii.eqb c newline)) s.

(** A text without a backslash in it. *)
Definition forward_only (s : string) : bool :=
  all_chars (fun c => negb (Ascii.eqb c backslash)) s.

(** A merge command line is the one that reads a concat manifest. *)
Definition is_merge_command (command : list string) : bool :=
  match command with
  | _ :: _ :: flag :: _ => String.eqb flag "-f"
  | _ => false
  end.

Definition merges (log : list (list string)) : list (list string) :=
  filter is_merge_command log.

Definition is_hardware_command (command : list string) : bool :=
  member "h264_nvenc" command.

(** ** Sample surroundings *)

Definition no_files : filesystem := fun _ => None.

Definition video_document (rate : string) : pyval :=
  PDict [("streams",
          PList [PDict [("codec_type", PStr "video"); ("codec_name", PStr "h264");
                        ("width", PNum (PyInt 1920)); ("height", PNum (PyInt 1080));
                        ("r_frame_rate", PStr rate)];
                 PDict [("codec_type", PStr "audio"); ("codec_name", PStr "aac")]]);
         ("format", PDict [("duration", PNum (PyFloat (Q2Qc (12 # 1))))])].

Definition music_document : pyval :=
  PDict [("streams",
          PList [PDict [("codec_type", PStr "audio"); ("codec_name", PStr "mp3")]]);
         ("format", PDict [("duration", PNum (PyFloat (Q2Qc (30 # 1))))])].

Definition sample_clip (file : string) : Path := joinpath VIDEO_DIR file.
Definition sample_song : Path := joinpath MUSIC_DIR "song.mp3".

(** A project folder with clips at 30, 30 and 25 frames per second, one clip
    whose frame rate prints as 0/0, one unreadable clip and one song. *)
Definition sample_probe (fs : filesystem) (p : Path) : probe_outcome :=
  let n := name p in
  if String.eqb n "a.mp4" || String.eqb n "b.mp4"
  then ProbeExited 0 (Document (video_document "30/1"))
  else if String.eqb n "c.mov" then ProbeExited 0 (Document (video_document "25/1"))
  else if String.eqb n "still.mp4" then ProbeExited 0 (Document (video_document "0/0"))
  else if String.eqb n "song.mp3" then ProbeExited 0 (Document music_document)
  else ProbeExited 1 Blank.

Definition sample_float_str (q : Qc) : string :=
  if Qc_eqb q (Q2Qc (30 # 1)) then "30.0"
  else if Qc_eqb q (Q2Qc (29 # 1)) then "29.0"
  else if Qc_eqb q (Q2Qc (25 # 1)) then "25.0"
  else if Qc_eqb q (Q2Qc (1 # 1)) then "1.0"
  else if Qc_eqb q (Q2Qc (1 # 2)) then "0.5"
  else "0.0".

Definition sample_float (v : pyval) : option Qc :=
  match v with
  | PNum n => Some (num_val n)
  | _ => None
  end.

Definition sample_iterdir (fs : filesystem) (dir : Path) : result (list Path) :=
  if String.eqb dir VIDEO_DIR
  then Ok [sample_clip "b.mp4"; sample_clip "a.mp4"; sample_clip "Music";
           sample_clip "final_video.mp4"]
  else if String.eqb dir MUSIC_DIR then Ok [sample_song]
  else Raise OSError.

(** An encoder that always succeeds and leaves its last argument on disk. *)
Definition working_ffmpeg (command : list string) (fs : filesystem)
  : tool_exit * filesystem :=
  (Exited 0, write_file fs (last command "") "media").

(** An encoder that always fails and writes nothing. *)
Definition failing_ffmpeg (command : list string) (fs : filesystem)
  : tool_exit * filesystem :=
  (Exited 1, fs).

(** An encoder that cannot copy a video stream but can encode one. *)
Definition no_copy_ffmpeg (command : list string) (fs : filesystem)
  : tool_exit * filesystem :=
  if member "copy" command then (Exited 1, fs)
  else (Exited 0, write_file fs (last command "") "media").

Definition sample_env (tool : list string -> filesystem -> tool_exit * filesystem)
  : Env :=
  {| ffprobe := sample_probe;
     ffmpeg := tool;
     iterdir := sample_iterdir;
     eval_other := fun _ => Raise SyntaxError;
     py_float := sample_float;
     float_str := sample_float_str |}.

(** The disk of the sample project: the song is there. *)
Definition sample_disk : filesystem := write_file no_files sample_song "music".

Definition sample_world : world := {| disk := sample_disk; invocations := [] |}.

Definition clip_a : Path := sample_clip "a.mp4".
Definition clip_b : Path := sample_clip "b.mp4".
Definition clip_c : Path := sample_clip "c.mov".
Definition thirty : pynum := PyFloat (Q2Qc (30 # 1)).
Definition twenty_five : pynum := PyFloat (Q2Qc (25 # 1)).

(** ** More vocabulary *)

(** A stream entry that says it is video. *)
Definition is_video_stream (stream : pyval) : bool :=
  match stream with
  | PDict d =>
      match obj_get "codec_type" d PNone with
      | PStr kind => String.eqb kind "video"
      | _ => false
      end
  | _ => false
  end.

(** A stream entry the loop of get_media_info gets past: an object, and when
    it says it is video, one whose frame rate evaluates. *)
Definition stream_safe (E : Env) (stream : pyval) : bool :=
  match stream with
  | PDict d =>
      if is_video_stream stream then
        match eval_value E (obj_get "r_frame_rate" d (PStr "0/1")) with
        | Ok _ => true
        | Raise _ => false
        end
      else true
  | _ => false
  end.

(** [l] with some of its elements left out, the others in their order. *)
Inductive subsequence {A : Type} : list A -> list A -> Prop :=
| subsequence_nil : subsequence [] []
| subsequence_skip (x : A) (s l : list A) : subsequence s l -> subsequence s (x :: l)
| subsequence_keep (x : A) (s l : list A) :
    subsequence s l -> subsequence (x :: s) (x :: l).

(** A text without an apostrophe in it. *)
Definition no_quote (s : string) : bool :=
  all_chars (fun c => negb (Ascii.eqb c quote)) s.

(** ffmpeg that never ends well and leaves the disk as it was. *)
Definition ffmpeg_unusable (E : Env) : Prop :=
  forall command fs,
    snd (ffmpeg E command fs) = fs /\ fst (ffmpeg E command fs) <> Exited 0.

(** Path(text) on the sample project: separators become backslashes. *)
Definition sample_path_of_text (text : string) : Path :=
  map_string (fun c => if Ascii.eqb c slash then backslash else c) text.

(** An encoder that fails after leaving a file where its output goes. *)
Definition littering_ffmpeg (command : list string) (fs : filesystem)
  : tool_exit * filesystem :=
  (Exited 1, write_file fs (last command "") "partial").

(** ffmpeg is not installed. *)
Definition absent_ffmpeg (command : list string) (fs : filesystem)
  : tool_exit * filesystem :=
  (NotStarted, fs).

(** The durations of a list of files added up from [total], in order. *)
Fixpoint durations_total (E : Env) (fs : filesystem) (files : list Path)
    (total : Qc) : result Qc :=
  match files with
  | [] => Ok total
  | f :: rest =>
      (let? d := get_duration E fs f in
       durations_total E fs rest (total + d)%Qc)%result
  end.

(** A path that survives being written to the manifest and read back: no
    line break and no apostrophe in it, no white space at either end, and
    Path() of its forward-slash text gives it back. *)
Definition reads_back (Path_of_text : string -> Path) (video : Path) : Prop :=
  single_line video = true
  /\ no_quote (as_posix video) = true
  /\ strip (as_posix video) = as_posix video
  /\ Path_of_text (as_posix video) = video.

(** A project whose folders list what is given. *)
Definition listing (video_entries music_entries : list Path) (fs : filesystem)
    (dir : Path) : result (list Path) :=
  if String.eqb dir VIDEO_DIR then Ok video_entries
  else if String.eqb dir MUSIC_DIR then Ok music_entries
  else Raise OSError.

(** The sample probe, with one more file: a song whose cover picture is a
    video stream with frame rate 0/0. *)
Definition cover_probe (fs : filesystem) (p : Path) : probe_outcome :=
  if String.eqb (name p) "cover.mp3"
  then ProbeExited 0 (Document (video_document "0/0"))
  else sample_probe fs p.

Definition project_env (tool : list string -> filesystem -> tool_exit * filesystem)
    (video_entries music_entries : list Path) : Env :=
  {| ffprobe := cover_probe;
     ffmpeg := tool;
     iterdir := listing video_entries music_entries;
     eval_other := fun _ => Raise SyntaxError;
     py_float := sample_float;
     float_str := sample_float_str |}.

Definition cover_song : Path := joinpath MUSIC_DIR "cover.mp3".
Definition noise_song : Path := joinpath MUSIC_DIR "noise.wav".

Definition cover_world : world :=
  {| disk := write_file (write_file no_files cover_song "music") noise_song "noise";
     invocations := [] |}.

(** ** Equality of numbers *)

Lemma Qc_eqb_eq (x y : Qc) : Qc_eqb x y = true <-> x = y.
Proof.
  unfold Qc_eqb. rewrite Qeq_bool_iff. split.
  - apply Qc_is_canon.
  - intros ->. reflexivity.
Qed.

Lemma num_eqb_eq (a b : pynum) : num_eqb a b = true <-> num_val a = num_val b.
Proof. unfold num_eqb. apply Qc_eqb_eq. Qed.

Lemma num_eqb_neq (a b : pynum) : num_eqb a b = false <-> num_val a <> num_val b.
Proof.
  rewrite <- num_eqb_eq. destruct (num_eqb a b); split; congruence.
Qed.

Lemma num_eqb_refl (a : pynum) : num_eqb a a = true.
Proof. apply num_eqb_eq. reflexivity. Qed.

Lemma Qc_ltb_lt (x y : Qc) : Qc_ltb x y = true <-> (x < y)%Qc.
Proof.
  unfold Qc_ltb. rewrite Qclt_alt.
  destruct (x ?= y)%Qc; split; congruence.
Qed.

(** Case analysis on a test [num_eqb a b], leaving the fact about values. *)
Ltac by_rate a b :=
  let H := fresh "Hrate" in
  destruct (num_eqb a b) eqn:H;
  [apply num_eqb_eq in H | apply num_eqb_neq in H].

(** ** The Media Prober *)

(** The failures the prober guards against all give the empty record. *)
Lemma guarded_probe_failures_give_empty (E : Env) (fs : filesystem) (p : Path) :
  ffprobe E fs p = ProbeNotRun
  \/ (exists rc out, ffprobe E fs p = ProbeExited rc out /\ rc <> 0%Z)
  \/ ffprobe E fs p = ProbeExited 0 Blank
  \/ ffprobe E fs p = ProbeExited 0 Garbage ->
  get_media_info E fs p = Ok empty_info.
Proof.
  unfold get_media_info.
  intros [H | [(rc & out & H & Hrc) | [H | H]]]; rewrite H; try reflexivity.
  apply Z.eqb_neq in Hrc. rewrite Hrc. reflexivity.
Qed.

Lemma empty_info_reads_as_unknown :
  info_duration empty_info = 0%Qc /\ info_fps empty_info = PyInt 0
  /\ video_codec empty_info = None /\ audio_codec empty_info = None.
Proof. repeat split. Qed.

(** A probe that failed in one of the guarded ways reads as rate 0 and
    duration 0. *)
Lemma failed_probe_reads_as_zero (E : Env) (fs : filesystem) (p : Path) :
  get_media_info E fs p = Ok empty_info ->
  probed_rates E fs [p] = Ok [PyInt 0] /\ get_duration E fs p = Ok 0%Qc.
Proof.
  intros H. unfold get_duration. simpl. rewrite H. split; reflexivity.
Qed.

(** C1, where the code departs from it: ffprobe exits with status 0 and
    prints a JSON document whose video stream has the frame rate 0/0; the
    prober then evaluates that text outside any try block, and the division
    by zero leaves get_media_info as an exception instead of a record. *)
Theorem get_media_info_raises_on_zero_frame_rate :
  ffprobe (sample_env working_ffmpeg) no_files (sample_clip "still.mp4")
    = ProbeExited 0 (Document (video_document "0/0"))
  /\ get_media_info (sample_env working_ffmpeg) no_files (sample_clip "still.mp4")
       = Raise ZeroDivisionError.
Proof. split; vm_compute; reflexivity. Qed.

(** A document that is not a JSON object is not survived either. *)
Lemma get_media_info_raises_on_non_object (E : Env) (fs : filesystem) (p : Path)
    (items : list pyval) :
  ffprobe E fs p = ProbeExited 0 (Document (PList items)) ->
  get_media_info E fs p = Raise AttributeError.
Proof. unfold get_media_info. intros ->. reflexivity. Qed.

(** ** The frame-rate histogram *)

Lemma counts_get_same_rate (a b : pynum) (h : histogram) (d : nat) :
  num_val a = num_val b -> counts_get a h d = counts_get b h d.
Proof.
  intros Hab. induction h as [|[k v] t IH]; simpl; [reflexivity|].
  unfold num_eqb. rewrite Hab, IH. reflexivity.
Qed.

Lemma occurrences_same_rate (a b : pynum) (rates : list pynum) :
  num_val a = num_val b -> occurrences a rates = occurrences b rates.
Proof.
  intros Hab. induction rates as [|x t IH]; simpl; [reflexivity|].
  unfold num_eqb. rewrite Hab, IH. reflexivity.
Qed.

Lemma counts_get_set (k r : pynum) (v : nat) (h : histogram) :
  counts_get k (counts_set r v h) 0
  = if num_eqb r k then v else counts_get k h 0.
Proof.
  induction h as [|[k' v'] t IH]; simpl.
  - reflexivity.
  - by_rate k' r; simpl.
    + by_rate k' k; by_rate r k; try reflexivity; congruence.
    + rewrite IH. by_rate k' k; by_rate r k; try reflexivity; congruence.
Qed.

Lemma counts_get_add_rate (k r : pynum) (h : histogram) :
  counts_get k (add_rate h r) 0
  = counts_get k h 0 + (if num_eqb r k then 1 else 0).
Proof.
  unfold add_rate. rewrite counts_get_set.
  by_rate r k.
  - rewrite (counts_get_same_rate r k); auto.
  - lia.
Qed.

(** After the loop, the count stored for a rate is the number of its
    occurrences, on top of what the dict held before. *)
Lemma counts_get_tally (rates : list pynum) :
  forall (h : histogram) (k : pynum),
    counts_get k (fold_left add_rate rates h) 0
    = counts_get k h 0 + occurrences k rates.
Proof.
  induction rates as [|x t IH]; intros h k; simpl.
  - lia.
  - rewrite IH, counts_get_add_rate. lia.
Qed.

Lemma keys_counts_set (k r : pynum) (v : nat) (h : histogram) :
  In k (map fst (counts_set r v h)) -> In k (map fst h) \/ k = r.
Proof.
  induction h as [|[k' v'] t IH]; simpl.
  - intros [H | []]. right; congruence.
  - destruct (num_eqb k' r); simpl.
    + intros [H | H]; auto.
    + intros [H | H]; auto. destruct (IH H); auto.
Qed.

Lemma keys_tally (rates : list pynum) :
  forall (h : histogram) (k : pynum),
    In k (map fst (fold_left add_rate rates h)) ->
    In k (map fst h) \/ In k rates.
Proof.
  induction rates as [|x t IH]; intros h k; simpl; auto.
  intros H. destruct (IH _ _ H) as [H' | H']; auto.
  destruct (keys_counts_set _ _ _ _ H'); auto.
Qed.

Lemma counts_get_key (k : pynum) (h : histogram) :
  counts_get k h 0 <> 0 ->
  exists k', In k' (map fst h) /\ num_val k' = num_val k.
Proof.
  induction h as [|[k' v'] t IH]; simpl; [congruence|].
  by_rate k' k.
  - intros _. exists k'. auto.
  - intros H. destruct (IH H) as (k'' & Hin & Hv). exists k''. auto.
Qed.

Lemma occurrences_member (r : pynum) (rates : list pynum) :
  In r rates -> 0 < occurrences r rates.
Proof.
  induction rates as [|x t IH]; simpl; [tauto|].
  intros [-> | H].
  - rewrite num_eqb_refl. lia.
  - specialize (IH H). lia.
Qed.

(** ** max with a key *)

Lemma max_by_member {A : Type} (key : A -> nat) (items : list A) :
  forall best, In (max_by key best items) (best :: items).
Proof.
  induction items as [|x t IH]; intros best; simpl; auto.
  destruct (key best <? key x)%nat.
  - destruct (IH x) as [H | H]; auto.
  - destruct (IH best) as [H | H]; auto.
Qed.

Lemma max_by_greatest {A : Type} (key : A -> nat) (items : list A) :
  forall best x, In x (best :: items) -> key x <= key (max_by key best items).
Proof.
  induction items as [|y t IH]; intros best x Hx; simpl.
  - destruct Hx as [-> | []]. lia.
  - destruct (key best <? key y)%nat eqn:Hlt.
    + apply Nat.ltb_lt in Hlt. destruct Hx as [-> | [-> | Hx]].
      * specialize (IH y y (or_introl eq_refl)). lia.
      * apply IH. left; reflexivity.
      * apply IH. right; exact Hx.
    + apply Nat.ltb_ge in Hlt. destruct Hx as [-> | [-> | Hx]].
      * apply IH. left; reflexivity.
      * specialize (IH best best (or_introl eq_refl)). lia.
      * apply IH. right; exact Hx.
Qed.

(** ** The Compatibility Analyzer *)

Section Analyzer.

Variable E : Env.
Variable fs : filesystem.

Lemma probed_rates_length (videos : list Path) :
  forall rates, probed_rates E fs videos = Ok rates ->
                List.length rates = List.length videos.
Proof.
  induction videos as [|v t IH]; simpl; intros rates H.
  - inversion H. reflexivity.
  - destruct (get_media_info E fs v); simpl in H; [|discriminate].
    destruct (probed_rates E fs t); simpl in H; [|discriminate].
    inversion H. simpl. f_equal. apply IH. reflexivity.
Qed.

Lemma tally_probed (videos : list Path) :
  forall rates h, probed_rates E fs videos = Ok rates ->
                  tally E fs videos h = Ok (fold_left add_rate rates h).
Proof.
  induction videos as [|v t IH]; simpl; intros rates h H.
  - inversion H. reflexivity.
  - destruct (get_media_info E fs v); simpl in *; [|discriminate].
    destruct (probed_rates E fs t) as [rs|]; simpl in H; [|discriminate].
    inversion H. simpl. apply IH. reflexivity.
Qed.

(** With two files or more, the analyzer is the histogram of the probed
    rates followed by max and a length test. *)
Lemma analyzer_on_rates (videos : list Path) (rates : list pynum) :
  2 <= List.length videos ->
  probed_rates E fs videos = Ok rates ->
  find_majority_frame_rate E fs videos
  = match fold_left add_rate rates [] with
    | [] => Ok (true, PyInt 0)
    | (k, v) :: t =>
        Ok ((List.length ((k, v) :: t) =? 1)%nat,
            max_by (fun r => counts_get r ((k, v) :: t) 0) k (map fst t))
    end.
Proof.
  intros Hlen Hrates. unfold find_majority_frame_rate.
  destruct (List.length videos <? 2)%nat eqn:Hlt.
  - apply Nat.ltb_lt in Hlt. lia.
  - rewrite (tally_probed _ _ _ Hrates). simpl.
    destruct (fold_left add_rate rates []) as [|[k v] t]; reflexivity.
Qed.

End Analyzer.

Lemma single_rate_histogram (rates : list pynum) :
  forall k v, (forall x, In x rates -> num_val x = num_val k) ->
              fold_left add_rate rates [(k, v)] = [(k, v + List.length rates)].
Proof.
  induction rates as [|x t IH]; intros k v Hall; simpl.
  - f_equal. f_equal. lia.
  - assert (Hx : num_eqb k x = true).
    { apply num_eqb_eq. symmetry. apply Hall. left; reflexivity. }
    unfold add_rate at 2. simpl. rewrite Hx.
    rewrite IH by (intros y Hy; apply Hall; right; exact Hy).
    f_equal. f_equal. lia.
Qed.

Lemma singleton_histogram_rates (rates : list pynum) (k : pynum) (v : nat) :
  fold_left add_rate rates [] = [(k, v)] ->
  forall x, In x rates -> num_val x = num_val k.
Proof.
  intros Hh x Hx.
  pose proof (counts_get_tally rates [] x) as Hc.
  rewrite Hh in Hc. simpl in Hc.
  pose proof (occurrences_member _ _ Hx) as Hpos.
  by_rate k x; [congruence | lia].
Qed.

Lemma histogram_nonempty (rates : list pynum) (r : pynum) :
  In r rates -> fold_left add_rate rates [] <> [].
Proof.
  intros Hr Hh.
  pose proof (counts_get_tally rates [] r) as Hc.
  rewrite Hh in Hc. simpl in Hc.
  pose proof (occurrences_member _ _ Hr). lia.
Qed.

(** C2: with two files or more whose probes return, the analyzer answers
    compatible exactly when all probed rates are one and the same value, and
    then the majority it returns is that value.  A probe that failed in a
    guarded way is in the list with rate 0 like any other. *)
Theorem compatible_iff_single_rate (E : Env) (fs : filesystem)
    (videos : list Path) (rates : list pynum) :
  2 <= List.length videos ->
  probed_rates E fs videos = Ok rates ->
  exists (is_compatible : bool) (majority : pynum),
    find_majority_frame_rate E fs videos = Ok (is_compatible, majority)
    /\ (is_compatible = true
        <-> exists r, In r rates /\ forall x, In x rates -> num_val x = num_val r)
    /\ (forall r, (forall x, In x rates -> num_val x = num_val r) ->
                  is_compatible = true /\ num_val majority = num_val r).
Proof.
  intros Hlen Hrates.
  rewrite (analyzer_on_rates E fs videos rates Hlen Hrates).
  pose proof (probed_rates_length E fs videos rates Hrates) as Hl.
  destruct rates as [|r0 rest]; [simpl in Hl; lia|].
  assert (Hone : forall r, (forall x, In x (r0 :: rest) -> num_val x = num_val r) ->
                 fold_left add_rate (r0 :: rest) [] = [(r0, 1 + List.length rest)]).
  { intros r Hall. simpl. unfold add_rate at 2. simpl.
    apply single_rate_histogram. intros x Hx.
    rewrite (Hall x), (Hall r0); simpl; auto. }
  destruct (fold_left add_rate (r0 :: rest) []) as [|[k v] t] eqn:Hh.
  - exfalso. apply (histogram_nonempty (r0 :: rest) r0); simpl; auto.
  - eexists. eexists. split; [reflexivity|]. split; [split|].
    + intros Hb. apply Nat.eqb_eq in Hb. simpl in Hb.
      destruct t; [|simpl in Hb; lia].
      exists r0. split; [left; reflexivity|]. intros x Hx.
      rewrite (singleton_histogram_rates _ _ _ Hh x Hx).
      symmetry. apply (singleton_histogram_rates _ _ _ Hh). left; reflexivity.
    + intros (r & _ & Hall). specialize (Hone r Hall). inversion Hone. reflexivity.
    + intros r Hall. specialize (Hone r Hall). inversion Hone; subst. simpl.
      split; [reflexivity|]. apply Hall. left; reflexivity.
Qed.

(** C3: with no file the analyzer answers (true, 0); with one file whose
    probe returns it answers true and that file's rate. *)
Theorem fewer_than_two_is_compatible (E : Env) (fs : filesystem)
    (videos : list Path) (rates : list pynum) :
  List.length videos < 2 ->
  probed_rates E fs videos = Ok rates ->
  find_majority_frame_rate E fs videos
  = Ok (true, match rates with
              | [] => PyInt 0
              | r :: _ => r
              end)
  /\ (videos = [] -> rates = [])
  /\ (forall v, videos = [v] ->
        exists info, get_media_info E fs v = Ok info /\ rates = [info_fps info]).
Proof.
  intros Hlen Hrates. unfold find_majority_frame_rate.
  destruct videos as [|v [|v' t]]; simpl in *; try lia.
  - inversion Hrates. repeat split; try reflexivity. intros v H. discriminate.
  - destruct (get_media_info E fs v) as [info|] eqn:Hinfo; simpl in *; [|discriminate].
    inversion Hrates. repeat split; try discriminate.
    intros v0 Hv. inversion Hv; subst. exists info. auto.
Qed.

(** C4: with two files or more whose probed rates are not all equal, a rate
    that occurs strictly more often than every other one is the majority the
    analyzer returns. *)
Theorem strict_majority_is_returned (E : Env) (fs : filesystem)
    (videos : list Path) (rates : list pynum) (r : pynum) :
  2 <= List.length videos ->
  probed_rates E fs videos = Ok rates ->
  (exists a b, In a rates /\ In b rates /\ num_val a <> num_val b) ->
  In r rates ->
  (forall x, In x rates -> num_val x <> num_val r ->
             occurrences x rates < occurrences r rates) ->
  exists majority,
    find_majority_frame_rate E fs videos = Ok (false, majority)
    /\ num_val majority = num_val r.
Proof.
  intros Hlen Hrates (a & b & Ha & Hb & Hab) Hr Hstrict.
  rewrite (analyzer_on_rates E fs videos rates Hlen Hrates).
  destruct (fold_left add_rate rates []) as [|[k v] t] eqn:Hh.
  - exfalso. apply (histogram_nonempty rates r Hr Hh).
  - set (h := (k, v) :: t) in *.
    set (key := fun x => counts_get x h 0).
    eexists. split.
    + f_equal. f_equal. apply Nat.eqb_neq. intros Hone.
      destruct t; [|simpl in Hone; lia].
      apply Hab.
      rewrite (singleton_histogram_rates _ _ _ Hh a Ha).
      rewrite (singleton_histogram_rates _ _ _ Hh b Hb). reflexivity.
    + assert (Hkey : forall x, key x = occurrences x rates).
      { intros x. unfold key. rewrite <- Hh.
        rewrite counts_get_tally. reflexivity. }
      pose proof (max_by_member key (map fst t) k) as Hin.
      pose proof (max_by_greatest key (map fst t) k) as Hmax.
      set (m := max_by key k (map fst t)) in *.
      change (k :: map fst t) with (map fst h) in Hin, Hmax.
      assert (Hm : In m rates).
      { rewrite <- Hh in Hin. destruct (keys_tally _ _ _ Hin) as [[]|]; auto. }
      destruct (counts_get_key r h) as (kr & Hkr & Hv).
      { fold (key r). rewrite Hkey. pose proof (occurrences_member _ _ Hr). lia. }
      specialize (Hmax kr Hkr). rewrite !Hkey in Hmax.
      rewrite (occurrences_same_rate kr r rates Hv) in Hmax.
      destruct (Qc_eq_dec (num_val m) (num_val r)) as [Heq | Hne]; auto.
      specialize (Hstrict m Hm Hne). lia.
Qed.

(** ** The Merger's command line *)

Lemma run_ffmpeg_log (E : Env) (command : list string) (total : Qc) (w : world) :
  invocations (snd (run_ffmpeg E command total w))
  = (invocations w ++ [command])%list.
Proof.
  unfold run_ffmpeg. destruct (ffmpeg E command (disk w)) as [[|rc] fs']; simpl.
  - reflexivity.
  - destruct (rc =? 0)%Z; reflexivity.
Qed.

(** With the music file on disk and a duration read for it, the Merger runs
    exactly the command built for that duration. *)
Lemma merge_with_music_runs (E : Env) (concat music out : Path) (hw : bool)
    (w : world) (d : Qc) :
  path_exists (disk w) music = true ->
  get_duration E (disk w) music = Ok d ->
  merge_videos_with_music E concat (Some music) out hw w
  = run_ffmpeg E (merge_command E concat (Some music) out hw true d) d w.
Proof.
  intros Hthere Hd. unfold merge_videos_with_music, music_present.
  rewrite Hthere. unfold bind, look. simpl. rewrite Hd. reflexivity.
Qed.

Lemma fade_out_start_value (d : Qc) :
  (0 <= num_val (fade_out_start d))%Qc
  /\ ((FADE_OUT_SECONDS <= d)%Qc ->
      num_val (fade_out_start d) = (d - FADE_OUT_SECONDS)%Qc)
  /\ ((d <= FADE_OUT_SECONDS)%Qc -> num_val (fade_out_start d) = 0%Qc).
Proof.
  unfold fade_out_start, py_max.
  change (num_val (PyInt 0)) with 0%Qc.
  change (num_val (PyFloat (d - FADE_OUT_SECONDS))) with (d - FADE_OUT_SECONDS)%Qc.
  destruct (Qc_ltb 0 (d - FADE_OUT_SECONDS)) eqn:Hlt.
  - apply Qc_ltb_lt in Hlt. simpl. repeat split.
    + apply Qclt_le_weak. exact Hlt.
    + intros Hle. exfalso. apply (Qcle_not_lt _ _ Hle).
      apply Qclt_minus_iff. exact Hlt.
  - assert (Hge : (d - FADE_OUT_SECONDS <= 0)%Qc).
    { apply Qcnot_lt_le. intros H. apply Qc_ltb_lt in H. congruence. }
    simpl. repeat split.
    + apply Qcle_refl.
    + intros Hle. apply Qcle_antisym; [|exact Hge].
      apply Qcle_minus_iff in Hle. exact Hle.
Qed.

(** C5: for a music file that is there and lasts [d > 0] seconds, the Merger
    runs a command whose filter chain carries the fade-out start; that start
    is [d - FADE_OUT_SECONDS] when this is not negative and 0 otherwise, so
    never negative: 29 for 30 seconds of music and 0 for half a second. *)
Theorem fade_out_start_is_clamped (E : Env) (concat music out : Path) (hw : bool)
    (w : world) (d : Qc) :
  path_exists (disk w) music = true ->
  get_duration E (disk w) music = Ok d ->
  (0 < d)%Qc ->
  let command := merge_command E concat (Some music) out hw true d in
  merge_videos_with_music E concat (Some music) out hw w = run_ffmpeg E command d w
  /\ nth_error command 10 = Some "-filter_complex"
  /\ nth_error command 11 = Some (filter_chain E d)
  /\ filter_chain E d
     = "[0:v]trim=duration=" ++ float_str E d
       ++ ",fade=t=in:st=0:d=" ++ float_str E FADE_IN_SECONDS
       ++ ",fade=t=out:st=" ++ num_str E (fade_out_start d)
       ++ ":d=" ++ float_str E FADE_OUT_SECONDS ++ "[v]"
  /\ (0 <= num_val (fade_out_start d))%Qc
  /\ ((FADE_OUT_SECONDS <= d)%Qc ->
      num_val (fade_out_start d) = (d - FADE_OUT_SECONDS)%Qc)
  /\ ((d <= FADE_OUT_SECONDS)%Qc -> num_val (fade_out_start d) = 0%Qc)
  /\ fade_out_start (Q2Qc (30 # 1)) = PyFloat (Q2Qc (29 # 1))
  /\ num_val (fade_out_start (Q2Qc (1 # 2))) = 0%Qc.
Proof.
  intros Hthere Hd Hpos command.
  assert (Hbranch : Qc_ltb 0 d = true) by (apply Qc_ltb_lt; exact Hpos).
  split; [apply merge_with_music_runs; assumption|].
  split; [unfold command, merge_command; simpl; rewrite Hbranch;
          destruct hw; reflexivity|].
  split; [unfold command, merge_command; simpl; rewrite Hbranch;
          destruct hw; reflexivity|].
  split; [reflexivity|].
  destruct (fade_out_start_value d) as (H0 & H1 & H2).
  repeat split; assumption || reflexivity.
Qed.

(** C9: for a music file that is there and lasts [d > 0] seconds, the Merger
    without hardware encoding runs a command that filters the video stream
    with trim and fade and, in the same command, names copy as the video
    codec. *)
Theorem software_branch_filters_and_copies (E : Env) (concat music out : Path)
    (w : world) (d : Qc) :
  path_exists (disk w) music = true ->
  get_duration E (disk w) music = Ok d ->
  (0 < d)%Qc ->
  let command :=
    ["ffmpeg"; "-y"; "-f"; "concat"; "-safe"; "0"; "-i"; concat;
     "-i"; music;
     "-filter_complex"; filter_chain E d; "-map"; "[v]"; "-map"; "1:a";
     "-t"; float_str E d; "-c:v"; "copy"; "-c:a"; "aac"; out] in
  merge_videos_with_music E concat (Some music) out false w
  = run_ffmpeg E command d w
  /\ invocations (snd (merge_videos_with_music E concat (Some music) out false w))
     = (invocations w ++ [command])%list.
Proof.
  intros Hthere Hd Hpos command.
  assert (Hbranch : Qc_ltb 0 d = true) by (apply Qc_ltb_lt; exact Hpos).
  assert (Hrun : merge_videos_with_music E concat (Some music) out false w
                 = run_ffmpeg E command d w).
  { rewrite (merge_with_music_runs E concat music out false w d Hthere Hd).
    unfold merge_command. simpl. rewrite Hbranch. reflexivity. }
  split; [exact Hrun|]. rewrite Hrun. apply run_ffmpeg_log.
Qed.

(** ** The manifest *)

Lemma string_app_assoc (a b c : string) : (a ++ b) ++ c = a ++ (b ++ c).
Proof.
  induction a as [|x a IH]; simpl; [reflexivity|]. rewrite IH. reflexivity.
Qed.

Lemma string_app_empty (a : string) : a ++ "" = a.
Proof.
  induction a as [|x a IH]; simpl; [reflexivity|]. rewrite IH. reflexivity.
Qed.

Lemma manifest_text_from (videos : list Path) :
  forall written,
    fold_left (fun text video => text ++ manifest_line video) videos written
    = written
      ++ fold_left (fun text video => text ++ manifest_line video) videos "".
Proof.
  induction videos as [|v t IH]; intros written; simpl.
  - symmetry. apply string_app_empty.
  - rewrite IH. rewrite (IH (manifest_line v)).
    apply string_app_assoc.
Qed.

Lemma all_chars_app (p : ascii -> bool) (a b : string) :
  all_chars p (a ++ b) = all_chars p a && all_chars p b.
Proof.
  induction a as [|x a IH]; simpl; [reflexivity|].
  rewrite IH. apply andb_assoc.
Qed.

Lemma single_line_app (a b : string) :
  single_line (a ++ b) = single_line a && single_line b.
Proof. apply all_chars_app. Qed.

Lemma forward_only_as_posix (p : Path) : forward_only (as_posix p) = true.
Proof.
  unfold forward_only, as_posix.
  induction p as [|c p IH]; simpl; [reflexivity|].
  rewrite IH, andb_true_r.
  destruct (Ascii.eqb c backslash) eqn:Hc; [reflexivity|].
  rewrite Hc. reflexivity.
Qed.

Lemma single_line_as_posix (p : Path) :
  single_line p = true -> single_line (as_posix p) = true.
Proof.
  unfold single_line, as_posix.
  induction p as [|c p IH]; simpl; [reflexivity|].
  intros H. apply andb_true_iff in H. destruct H as [Hc Hp].
  rewrite (IH Hp), andb_true_r.
  destruct (Ascii.eqb c backslash); [reflexivity | exact Hc].
Qed.

Lemma lines_of_first (line rest : string) :
  single_line line = true ->
  lines_of (line ++ char newline ++ rest) = line :: lines_of rest.
Proof.
  unfold single_line.
  induction line as [|c line IH]; simpl.
  - intros _. reflexivity.
  - intros H. apply andb_true_iff in H. destruct H as [Hc Hl].
    apply negb_true_iff in Hc. rewrite Hc.
    simpl in IH. rewrite (IH Hl). reflexivity.
Qed.

(** C7: the manifest written for a list of paths (none with a line break in
    it, as on Windows) has exactly one line per path, in the order given,
    each line being file '<path>' with forward slashes for the separators
    and no backslash left; nothing else is launched or changed. *)
Theorem manifest_has_one_line_per_video (videos : list Path) (w : world) :
  Forall (fun video => single_line video = true) videos ->
  exists text,
    create_concatenation_list videos w
    = (Ok concat_list_path,
       {| disk := write_file (disk w) concat_list_path text;
          invocations := invocations w |})
    /\ disk (snd (create_concatenation_list videos w)) concat_list_path = Some text
    /\ lines_of text = map (fun video => "file '" ++ as_posix video ++ "'") videos
    /\ List.length (lines_of text) = List.length videos
    /\ Forall (fun line => forward_only line = true) (lines_of text).
Proof.
  intros Hlines. unfold create_concatenation_list.
  set (text := fold_left (fun written video => written ++ manifest_line video)
                         videos "").
  exists text.
  assert (Hsplit : lines_of text
                   = map (fun video => "file '" ++ as_posix video ++ "'") videos).
  { unfold text. clear text.
    induction Hlines as [|v t Hv Ht IH]; simpl; [reflexivity|].
    rewrite manifest_text_from. unfold manifest_line at 1.
    replace (("file '" ++ as_posix v ++ "'" ++ char newline)
             ++ fold_left (fun text video => text ++ manifest_line video) t "")
      with (("file '" ++ as_posix v ++ "'") ++ char newline
            ++ fold_left (fun text video => text ++ manifest_line video) t "").
    - rewrite lines_of_first.
      + rewrite IH. reflexivity.
      + rewrite !single_line_app, (single_line_as_posix v Hv). reflexivity.
    - rewrite !string_app_assoc. reflexivity. }
  split; [reflexivity|]. split.
  - simpl. unfold write_file. rewrite String.eqb_refl. reflexivity.
  - split; [exact Hsplit|]. rewrite Hsplit. split; [apply length_map|].
    apply Forall_forall. intros line Hline. apply in_map_iff in Hline.
    destruct Hline as (video & <- & _).
    unfold forward_only. rewrite !all_chars_app.
    fold (forward_only (as_posix video)). rewrite forward_only_as_posix.
    reflexivity.
Qed.

(** ** Discovery *)

Lemma insert_sorted_member (x y : Path) (l : list Path) :
  In y (insert_sorted x l) <-> y = x \/ In y l.
Proof.
  induction l as [|z t IH]; simpl.
  - intuition congruence.
  - destruct (path_leb x z); simpl; [intuition congruence|].
    rewrite IH. intuition congruence.
Qed.

Lemma sorted_member (y : Path) (l : list Path) : In y (sorted l) <-> In y l.
Proof.
  unfold sorted. induction l as [|x t IH]; simpl; [tauto|].
  rewrite insert_sorted_member, IH. intuition congruence.
Qed.

Lemma member_In (s : string) (l : list string) : member s l = true <-> In s l.
Proof.
  unfold member. rewrite existsb_exists. split.
  - intros (x & Hx & Heq). apply String.eqb_eq in Heq. congruence.
  - intros H. exists s. split; [exact H | apply String.eqb_refl].
Qed.

(** C10: .m4a is listed both as a video and as an audio extension, so an
    entry whose suffix is .m4a, in any letter case, is kept by the video
    filter over the project folder and by the music filter over the Music
    folder; no excluded name ends in .m4a. *)
Theorem m4a_is_video_and_music (f : Path) (entries : list Path) :
  In f entries ->
  lower (suffix f) = ".m4a" ->
  In ".m4a" VIDEO_EXTENSIONS /\ In ".m4a" AUDIO_EXTENSIONS
  /\ In f (discover_videos entries)
  /\ In f (discover_music entries).
Proof.
  intros Hin Hsuffix.
  split; [simpl; tauto|]. split; [simpl; tauto|].
  assert (Hname : member (name f) excluded_names = false).
  { destruct (member (name f) excluded_names) eqn:Hm; [|reflexivity].
    exfalso. apply member_In in Hm. unfold suffix in Hsuffix.
    simpl in Hm. destruct Hm as [H | [H | [H | []]]];
      rewrite <- H in Hsuffix; vm_compute in Hsuffix; discriminate. }
  split.
  - unfold discover_videos. apply sorted_member. apply filter_In.
    split; [exact Hin|]. unfold is_video. rewrite Hsuffix, Hname. reflexivity.
  - unfold discover_music. apply filter_In.
    split; [exact Hin|]. unfold is_music. rewrite Hsuffix. reflexivity.
Qed.

(** ** The Transcoder *)

(** C6: the output path depends on the input only through its stem, and on
    the target rate; when a file is already there the Transcoder returns the
    path and leaves the world as it was, launching nothing.  So, with an
    encoder that has written its output file whenever it ends with status 0,
    a call that returns is followed by a second call that returns the same
    path and launches nothing: the two calls launch the encoder at most
    once. *)
Theorem transcoder_is_idempotent (E : Env) (input : Path) (target : option pynum)
    (w : world) :
  (forall fs fs',
      ffmpeg E (transcode_command E input target) fs = (Exited 0, fs') ->
      path_exists fs' (transcode_output E input target) = true) ->
  (forall other, stem other = stem input ->
                 transcode_output E other target = transcode_output E input target)
  /\ (path_exists (disk w) (transcode_output E input target) = true ->
      transcode_video E input target w = (Ok (transcode_output E input target), w))
  /\ (forall p w1,
        transcode_video E input target w = (Ok p, w1) ->
        p = transcode_output E input target
        /\ transcode_video E input target w1 = (Ok p, w1)
        /\ exists added,
             invocations w1 = (invocations w ++ added)%list
             /\ List.length added <= 1
             /\ (path_exists (disk w) p = true -> added = [])).
Proof.
  intros Hwrites. split; [|split].
  - intros other Hstem. unfold transcode_output. rewrite Hstem. reflexivity.
  - intros Hthere. unfold transcode_video. rewrite Hthere. reflexivity.
  - intros p w1. unfold transcode_video.
    destruct (path_exists (disk w) (transcode_output E input target)) eqn:Hthere.
    + intros H. inversion H; subst. rewrite Hthere.
      repeat split. exists []. rewrite app_nil_r. auto.
    + unfold bind, run_ffmpeg, ret.
      destruct (ffmpeg E (transcode_command E input target) (disk w))
        as [[|rc] fs'] eqn:Hrun; [discriminate|].
      destruct (rc =? 0)%Z eqn:Hrc; [|discriminate].
      apply Z.eqb_eq in Hrc. subst rc.
      intros H. inversion H; subst. simpl.
      rewrite (Hwrites _ _ Hrun).
      repeat split. exists [transcode_command E input target].
      repeat split; auto. congruence.
Qed.

(** Nothing is remembered of an encode that failed: with an encoder that
    always fails, two calls launch it twice. *)
Lemma failed_encode_is_repeated (input : Path) (target : option pynum) (w : world) :
  let E := sample_env failing_ffmpeg in
  path_exists (disk w) (transcode_output E input target) = false ->
  exists w1 w2,
    transcode_video E input target w = (Raise RuntimeError, w1)
    /\ transcode_video E input target w1 = (Raise RuntimeError, w2)
    /\ invocations w2
       = (invocations w ++ [transcode_command E input target;
                            transcode_command E input target])%list.
Proof.
  intros E Hmissing. unfold transcode_video. rewrite Hmissing.
  unfold bind, run_ffmpeg. simpl.
  eexists. eexists. split; [reflexivity|]. simpl. rewrite Hmissing.
  split; [reflexivity|]. simpl. rewrite <- app_assoc. reflexivity.
Qed.

(** ** The Orchestrator *)

Section Orchestrator.

Variable E : Env.

Lemma merges_app (a b : list (list string)) :
  merges (a ++ b)%list = (merges a ++ merges b)%list.
Proof. apply filter_app. Qed.

Lemma transcode_command_is_no_merge (input : Path) (target : option pynum) :
  is_merge_command (transcode_command E input target) = false.
Proof. reflexivity. Qed.

Lemma merge_command_is_hardware (concat : Path) (music : option Path) (out : Path)
    (has_music : bool) (d : Qc) :
  is_hardware_command (merge_command E concat music out true has_music d) = true.
Proof.
  apply member_In. unfold merge_command.
  destruct (has_music && Qc_ltb 0 d); [|destruct has_music]; simpl;
    repeat (first [left; reflexivity | right]).
Qed.

Lemma transcode_video_log (input : Path) (target : option pynum) (w : world) :
  exists added,
    invocations (snd (transcode_video E input target w))
    = (invocations w ++ added)%list
    /\ merges added = [].
Proof.
  unfold transcode_video.
  destruct (path_exists (disk w) (transcode_output E input target)).
  - exists []. simpl. rewrite app_nil_r. auto.
  - exists [transcode_command E input target]. split; [|reflexivity].
    unfold bind, ret.
    pose proof (run_ffmpeg_log E (transcode_command E input target) 0%Qc w) as Hlog.
    destruct (run_ffmpeg E (transcode_command E input target) 0%Qc w) as [[u|e] w'];
      exact Hlog.
Qed.

(** One turn of the transcode loop. *)
Lemma transcode_each_step (video : Path) (rest : list Path) (majority : pynum)
    (transcoded : list Path) (w : world) :
  transcode_each E (video :: rest) majority transcoded w
  = match get_media_info E (disk w) video with
    | Raise e => (Raise e, w)
    | Ok info =>
        let target := if num_eqb (info_fps info) majority then None
                      else Some majority in
        match transcode_video E video target w with
        | (Ok output, w') =>
            transcode_each E rest majority (transcoded ++ [output])%list w'
        | (Raise RuntimeError, w') => transcode_each E rest majority transcoded w'
        | (Raise e, w') => (Raise e, w')
        end
    end.
Proof.
  simpl. unfold bind at 1. unfold look. simpl.
  destruct (get_media_info E (disk w) video) as [info|e]; [|reflexivity].
  unfold bind, except_RuntimeError, ret.
  destruct (transcode_video E video _ w) as [[output|e] w']; [reflexivity|].
  destruct e; reflexivity.
Qed.

Lemma transcode_each_log (videos : list Path) (majority : pynum) :
  forall transcoded w,
  exists added,
    invocations (snd (transcode_each E videos majority transcoded w))
    = (invocations w ++ added)%list
    /\ merges added = [].
Proof.
  induction videos as [|video rest IH]; intros transcoded w.
  - exists []. simpl. rewrite app_nil_r. auto.
  - rewrite transcode_each_step.
    destruct (get_media_info E (disk w) video) as [info|e].
    + cbv zeta.
      set (target := if num_eqb (info_fps info) majority then None else Some majority).
      destruct (transcode_video_log video target w) as (first & Hfirst & Hnone).
      destruct (transcode_video E video target w) as [[output|e] w']; simpl in Hfirst.
      * destruct (IH (transcoded ++ [output])%list w') as (more & Hmore & Hnone').
        exists (first ++ more)%list. rewrite Hmore, Hfirst, app_assoc.
        split; [reflexivity|]. rewrite merges_app, Hnone, Hnone'. reflexivity.
      * assert (Hstop : exists added,
                   invocations w' = (invocations w ++ added)%list
                   /\ merges added = []) by (exists first; auto).
        destruct e; try exact Hstop.
        destruct (IH transcoded w') as (more & Hmore & Hnone').
        exists (first ++ more)%list. rewrite Hmore, Hfirst, app_assoc.
        split; [reflexivity|]. rewrite merges_app, Hnone, Hnone'. reflexivity.
    + exists []. simpl. rewrite app_nil_r. auto.
Qed.

Lemma merge_log (concat : Path) (music : option Path) (out : Path) (hw : bool)
    (w : world) :
  exists added,
    invocations (snd (merge_videos_with_music E concat music out hw w))
    = (invocations w ++ added)%list
    /\ List.length added <= 1
    /\ (hw = true -> Forall (fun c => is_hardware_command c = true) added).
Proof.
  unfold merge_videos_with_music, bind.
  set (has_music := music_present (disk w) music).
  destruct ((if has_music
             then look (fun fs => get_duration E fs (optional_path_str music))
             else ret 0%Qc) w) as [[d|e] w'] eqn:Hd.
  - assert (w' = w) as ->.
    { destruct has_music; unfold look, ret in Hd; inversion Hd; reflexivity. }
    eexists. split; [apply run_ffmpeg_log|]. split; [simpl; lia|].
    intros ->. constructor; [apply merge_command_is_hardware | constructor].
  - assert (w' = w) as ->.
    { destruct has_music; unfold look, ret in Hd; inversion Hd; reflexivity. }
    exists []. simpl. rewrite app_nil_r. repeat split; auto.
Qed.

(** The transcode path launches at most one merge, a hardware one. *)
Lemma transcode_path_log (videos : list Path) (music : Path) (majority : pynum)
    (w : world) :
  exists added,
    invocations (snd (transcode_path E videos music majority w))
    = (invocations w ++ added)%list
    /\ List.length (merges added) <= 1
    /\ Forall (fun c => is_hardware_command c = true) (merges added).
Proof.
  unfold transcode_path, bind.
  destruct (transcode_each_log videos majority [] w) as (first & Hfirst & Hnone).
  destruct (transcode_each E videos majority [] w) as [[transcoded|e] w'];
    simpl in Hfirst.
  - destruct transcoded as [|t ts].
    + exists first. simpl. rewrite Hnone. split; [exact Hfirst|]. simpl. auto.
    + unfold create_concatenation_list at 1.
      match goal with
      | |- context [merge_videos_with_music E ?c ?m ?o true ?w0] =>
          destruct (merge_log c m o true w0) as (last & Hlast & Hlen & Hhw)
      end.
      exists (first ++ last)%list. rewrite Hlast. simpl. rewrite Hfirst, app_assoc.
      split; [reflexivity|]. rewrite merges_app, Hnone. simpl.
      specialize (Hhw eq_refl). unfold merges. split.
      * pose proof (filter_length_le is_merge_command last). lia.
      * apply Forall_forall. intros c Hc. apply filter_In in Hc.
        rewrite Forall_forall in Hhw. apply Hhw. tauto.
  - exists first. simpl. rewrite Hnone. split; [exact Hfirst|]. simpl. auto.
Qed.

(** When a file survives transcoding, what the transcode path returns or
    raises is what its one merge returns or raises. *)
Lemma transcode_path_outcome (videos : list Path) (music : Path) (majority : pynum)
    (w w3 : world) (transcoded : list Path) :
  transcode_each E videos majority [] w = (Ok transcoded, w3) ->
  transcoded <> [] ->
  transcode_path E videos music majority w
  = merge_videos_with_music E concat_list_path (Some music) OUTPUT_PATH true
      (snd (create_concatenation_list transcoded w3)).
Proof.
  intros Heach Hsome. unfold transcode_path, bind. rewrite Heach.
  destruct transcoded as [|t ts]; [congruence|]. reflexivity.
Qed.

(** A run whose analysis says incompatible goes straight to the transcode
    path. *)
Lemma incompatible_run_transcodes (w : world) (entries music_entries : list Path)
    (music : Path) (others : list Path) (majority : pynum) :
  iterdir E (disk w) VIDEO_DIR = Ok entries ->
  discover_videos entries <> [] ->
  iterdir E (disk w) MUSIC_DIR = Ok music_entries ->
  discover_music music_entries = music :: others ->
  find_majority_frame_rate E (disk w) (discover_videos entries)
    = Ok (false, majority) ->
  main E w = transcode_path E (discover_videos entries) music majority w.
Proof.
  intros Hdir Hvideos Hmdir Hmusic Hanalysis.
  unfold main, bind at 1, look. simpl. rewrite Hdir.
  destruct (discover_videos entries) as [|v vs] eqn:Hv; [congruence|].
  unfold bind at 1. simpl. rewrite Hmdir, Hmusic.
  unfold bind at 1. simpl. rewrite Hanalysis.
  unfold bind at 1, ret. simpl. reflexivity.
Qed.

End Orchestrator.

(** C8: when the stream-copy merge of the fast path raises RuntimeError,
    main goes on as the transcode path, from the world the failed merge
    left.  The transcode path, however it is entered, launches at most one
    merge command, a hardware-encoding one, and when a file survived
    transcoding its outcome is the outcome of that merge: a failure of it is
    the failure of the run, with no handler and no second attempt. *)
Theorem fast_merge_failure_falls_back_once (E : Env) (w w1 : world)
    (entries music_entries : list Path) (music : Path) (others : list Path)
    (majority : pynum) :
  iterdir E (disk w) VIDEO_DIR = Ok entries ->
  discover_videos entries <> [] ->
  iterdir E (disk w) MUSIC_DIR = Ok music_entries ->
  discover_music music_entries = music :: others ->
  find_majority_frame_rate E (disk w) (discover_videos entries)
    = Ok (true, majority) ->
  merge_videos_with_music E concat_list_path (Some music) OUTPUT_PATH false
    (snd (create_concatenation_list (discover_videos entries) w))
    = (Raise RuntimeError, w1) ->
  let videos := discover_videos entries in
  main E w = transcode_path E videos music majority w1
  /\ (exists first,
        invocations w1 = (invocations w ++ first)%list /\ List.length first <= 1)
  /\ (forall w',
        (exists added,
            invocations (snd (transcode_path E videos music majority w'))
            = (invocations w' ++ added)%list
            /\ List.length (merges added) <= 1
            /\ Forall (fun c => is_hardware_command c = true) (merges added))
        /\ (forall transcoded w3,
              transcode_each E videos majority [] w' = (Ok transcoded, w3) ->
              transcoded <> [] ->
              transcode_path E videos music majority w'
              = merge_videos_with_music E concat_list_path (Some music)
                  OUTPUT_PATH true
                  (snd (create_concatenation_list transcoded w3)))).
Proof.
  intros Hdir Hvideos Hmdir Hmusic Hanalysis Hfail videos.
  split; [|split].
  - unfold main, bind at 1, look. simpl. rewrite Hdir. subst videos.
    destruct (discover_videos entries) as [|v vs] eqn:Hv; [congruence|].
    unfold bind at 1. simpl. rewrite Hmdir, Hmusic.
    unfold bind at 1. simpl. rewrite Hanalysis.
    unfold bind at 1. unfold fast_path, bind at 1.
    unfold create_concatenation_list at 1.
    unfold except_RuntimeError, bind at 1.
    unfold create_concatenation_list in Hfail. cbn [snd] in Hfail.
    rewrite Hfail. reflexivity.
  - destruct (merge_log E concat_list_path (Some music) OUTPUT_PATH false
                (snd (create_concatenation_list (discover_videos entries) w)))
      as (first & Hfirst & Hlen & _).
    rewrite Hfail in Hfirst. exists first. split; [exact Hfirst | exact Hlen].
  - intros w'. split.
    + apply transcode_path_log.
    + intros transcoded w3. apply transcode_path_outcome.
Qed.

(** ** The properties on the sample project *)

Lemma pair_of_fst {A B : Type} (p : A * B) (a : A) : fst p = a -> p = (a, snd p).
Proof. destruct p. simpl. intros ->. reflexivity. Qed.

Lemma compatible_iff_single_rate_witness :
  exists (is_compatible : bool) (majority : pynum),
    find_majority_frame_rate (sample_env working_ffmpeg) sample_disk [clip_a; clip_b]
    = Ok (is_compatible, majority)
    /\ (is_compatible = true
        <-> exists r, In r [thirty; thirty]
                      /\ forall x, In x [thirty; thirty] -> num_val x = num_val r)
    /\ (forall r, (forall x, In x [thirty; thirty] -> num_val x = num_val r) ->
                  is_compatible = true /\ num_val majority = num_val r).
Proof.
  apply (compatible_iff_single_rate (sample_env working_ffmpeg) sample_disk
           [clip_a; clip_b] [thirty; thirty]).
  - simpl. lia.
  - vm_compute. reflexivity.
Defined.

Lemma fewer_than_two_is_compatible_witness :
  find_majority_frame_rate (sample_env working_ffmpeg) sample_disk [clip_c]
  = Ok (true, twenty_five).
Proof.
  apply (fewer_than_two_is_compatible (sample_env working_ffmpeg) sample_disk
           [clip_c] [twenty_five]).
  - simpl. lia.
  - vm_compute. reflexivity.
Defined.

Lemma strict_majority_is_returned_witness :
  exists majority,
    find_majority_frame_rate (sample_env working_ffmpeg) sample_disk
      [clip_c; clip_a; clip_b] = Ok (false, majority)
    /\ num_val majority = num_val thirty.
Proof.
  apply (strict_majority_is_returned (sample_env working_ffmpeg) sample_disk
           [clip_c; clip_a; clip_b] [twenty_five; thirty; thirty] thirty).
  - simpl. lia.
  - vm_compute. reflexivity.
  - exists twenty_five, thirty.
    split; [simpl; auto|]. split; [simpl; auto|].
    apply num_eqb_neq. vm_compute. reflexivity.
  - simpl. auto.
  - intros x [<- | [<- | [<- | []]]] Hx;
      try (exfalso; apply Hx; reflexivity).
    vm_compute. lia.
Defined.

Lemma fade_out_start_is_clamped_witness :
  let E := sample_env working_ffmpeg in
  let command :=
    merge_command E concat_list_path (Some sample_song) OUTPUT_PATH false true
      (Q2Qc (30 # 1)) in
  nth_error command 11 = Some (filter_chain E (Q2Qc (30 # 1)))
  /\ filter_chain E (Q2Qc (30 # 1))
     = "[0:v]trim=duration=30.0,fade=t=in:st=0:d=0.5,fade=t=out:st=29.0:d=1.0[v]"
  /\ (0 <= num_val (fade_out_start (Q2Qc (30 # 1))))%Qc.
Proof.
  intros E command.
  destruct (fade_out_start_is_clamped E concat_list_path sample_song OUTPUT_PATH
              false sample_world (Q2Qc (30 # 1)))
    as (_ & _ & Hchain & _ & Hpos & _).
  - vm_compute. reflexivity.
  - vm_compute. reflexivity.
  - reflexivity.
  - split; [exact Hchain|]. split; [vm_compute; reflexivity | exact Hpos].
Defined.

Lemma transcoder_is_idempotent_witness :
  let E := sample_env working_ffmpeg in
  let first := transcode_video E clip_a (Some thirty) sample_world in
  fst first = Ok (transcode_output E clip_a (Some thirty))
  /\ transcode_video E clip_a (Some thirty) (snd first)
     = (Ok (transcode_output E clip_a (Some thirty)), snd first)
  /\ List.length (invocations (snd first)) = 1.
Proof.
  intros E first.
  assert (Hfirst : first = (Ok (transcode_output E clip_a (Some thirty)), snd first)).
  { apply pair_of_fst. vm_compute. reflexivity. }
  destruct (transcoder_is_idempotent E clip_a (Some thirty) sample_world)
    as (_ & _ & Htwice).
  - intros fs fs' Hrun. unfold E, sample_env, working_ffmpeg in Hrun. simpl in Hrun.
    inversion Hrun. vm_compute. reflexivity.
  - destruct (Htwice _ _ Hfirst) as (_ & Hsecond & _).
    split; [rewrite Hfirst; reflexivity|]. split; [exact Hsecond|].
    vm_compute. reflexivity.
Defined.

Lemma manifest_has_one_line_per_video_witness :
  exists text,
    disk (snd (create_concatenation_list ["a.mp4"; "b.mp4"; "c.mp4"] sample_world))
      concat_list_path = Some text
    /\ lines_of text = ["file 'a.mp4'"; "file 'b.mp4'"; "file 'c.mp4'"]
    /\ List.length (lines_of text) = 3.
Proof.
  destruct (manifest_has_one_line_per_video ["a.mp4"; "b.mp4"; "c.mp4"] sample_world)
    as (text & _ & Hdisk & Hlines & Hcount & _).
  - repeat constructor.
  - exists text. split; [exact Hdisk|]. split; [exact Hlines | exact Hcount].
Defined.

Lemma fast_merge_failure_falls_back_once_witness :
  let E := sample_env no_copy_ffmpeg in
  let failed :=
    merge_videos_with_music E concat_list_path (Some sample_song) OUTPUT_PATH false
      (snd (create_concatenation_list [clip_a; clip_b] sample_world)) in
  fst failed = Raise RuntimeError
  /\ main E sample_world
     = transcode_path E [clip_a; clip_b] sample_song thirty (snd failed).
Proof.
  intros E failed.
  assert (Hfailed : fst failed = Raise RuntimeError) by (vm_compute; reflexivity).
  split; [exact Hfailed|].
  destruct (fast_merge_failure_falls_back_once E sample_world (snd failed)
              [clip_b; clip_a; sample_clip "Music"; sample_clip "final_video.mp4"]
              [sample_song] sample_song [] thirty)
    as (Hmain & _).
  - reflexivity.
  - vm_compute. discriminate.
  - reflexivity.
  - vm_compute. reflexivity.
  - vm_compute. reflexivity.
  - apply pair_of_fst.
    change (discover_videos
              [clip_b; clip_a; sample_clip "Music"; sample_clip "final_video.mp4"])
      with [clip_a; clip_b].
    exact Hfailed.
  - exact Hmain.
Defined.

Lemma software_branch_filters_and_copies_witness :
  let E := sample_env working_ffmpeg in
  invocations
    (snd (merge_videos_with_music E concat_list_path (Some sample_song)
            OUTPUT_PATH false sample_world))
  = [["ffmpeg"; "-y"; "-f"; "concat"; "-safe"; "0"; "-i"; concat_list_path;
      "-i"; sample_song;
      "-filter_complex";
      "[0:v]trim=duration=30.0,fade=t=in:st=0:d=0.5,fade=t=out:st=29.0:d=1.0[v]";
      "-map"; "[v]"; "-map"; "1:a"; "-t"; "30.0";
      "-c:v"; "copy"; "-c:a"; "aac"; OUTPUT_PATH]].
Proof.
  intros E.
  destruct (software_branch_filters_and_copies E concat_list_path sample_song
              OUTPUT_PATH sample_world (Q2Qc (30 # 1)))
    as (_ & Hlog).
  - vm_compute. reflexivity.
  - vm_compute. reflexivity.
  - reflexivity.
  - rewrite Hlog. vm_compute. reflexivity.
Defined.

Lemma m4a_is_video_and_music_witness :
  let f := sample_clip "Voice Memo.M4A" in
  In f (discover_videos [sample_clip "notes.txt"; f])
  /\ In f (discover_music [sample_clip "notes.txt"; f]).
Proof.
  intros f.
  destruct (m4a_is_video_and_music f [sample_clip "notes.txt"; f])
    as (_ & _ & Hvideo & Hmusic).
  - simpl. auto.
  - vm_compute. reflexivity.
  - split; [exact Hvideo | exact Hmusic].
Defined.

(** An unreadable clip takes part in the histogram with rate 0; on a tie the
    rate met first is the majority. *)
Example unreadable_clip_counts_as_zero :
  probed_rates (sample_env working_ffmpeg) sample_disk
    [clip_a; sample_clip "unreadable.mp4"] = Ok [thirty; PyInt 0]
  /\ find_majority_frame_rate (sample_env working_ffmpeg) sample_disk
       [clip_a; sample_clip "unreadable.mp4"] = Ok (false, thirty)
  /\ find_majority_frame_rate (sample_env working_ffmpeg) sample_disk
       [sample_clip "unreadable.mp4"; clip_a] = Ok (false, PyInt 0).
Proof. vm_compute. repeat split. Qed.

(** The whole run on the sample project with an encoder that cannot copy: a
    stream-copy merge, then one encode per clip, then a hardware merge, and
    the run ends normally. *)
Example sample_run_falls_back :
  let outcome := main (sample_env no_copy_ffmpeg) sample_world in
  fst outcome = Ok tt
  /\ map is_merge_command (invocations (snd outcome)) = [true; false; false; true]
  /\ map is_hardware_command (merges (invocations (snd outcome))) = [false; true].
Proof. vm_compute. repeat split. Qed.

(** With an encoder that always fails, the run makes the same two attempts
    at most and then stops: no clip survives, so no second merge is tried. *)
Example sample_run_with_failing_encoder :
  let outcome := main (sample_env failing_ffmpeg) sample_world in
  fst outcome = Ok tt
  /\ map is_merge_command (invocations (snd outcome)) = [true; false; false].
Proof. vm_compute. repeat split. Qed.

(** * Further properties of the code *)

(** ** The stream loop of the prober *)

Section StreamLoop.

Variable E : Env.

Lemma scan_stream_not_object (info : MediaInfo) (stream : pyval) :
  (forall d, stream <> PDict d) -> scan_stream E info stream = Raise AttributeError.
Proof.
  intros Hno. destruct stream; try reflexivity. exfalso. apply (Hno d). reflexivity.
Qed.

(** A stream that does not say video leaves the video fields and the
    duration as they were. *)
Lemma scan_stream_other (info : MediaInfo) (d : list (string * pyval)) :
  is_video_stream (PDict d) = false ->
  exists info',
    scan_stream E info (PDict d) = Ok info'
    /\ fps info' = fps info /\ video_codec info' = video_codec info
    /\ width info' = width info /\ height info' = height info
    /\ duration info' = duration info.
Proof.
  unfold is_video_stream, scan_stream. simpl.
  destruct (obj_get "codec_type" d PNone) as [| | |kind| |];
    try (intros _; exists info; repeat split; reflexivity).
  intros Hkind. rewrite Hkind.
  destruct (String.eqb kind "audio"); eexists; repeat split; reflexivity.
Qed.

Lemma scan_stream_video (info : MediaInfo) (d : list (string * pyval)) :
  is_video_stream (PDict d) = true ->
  scan_stream E info (PDict d)
  = match eval_value E (obj_get "r_frame_rate" d (PStr "0/1")) with
    | Ok f =>
        Ok {| duration := duration info;
              video_codec := Some (obj_get "codec_name" d PNone);
              width := Some (obj_get "width" d PNone);
              height := Some (obj_get "height" d PNone);
              fps := Some f;
              audio_codec := audio_codec info |}
    | Raise e => Raise e
    end.
Proof.
  unfold is_video_stream, scan_stream. simpl.
  destruct (obj_get "codec_type" d PNone) as [| | |kind| |]; try discriminate.
  intros Hkind. rewrite Hkind.
  destruct (eval_value E (obj_get "r_frame_rate" d (PStr "0/1"))); reflexivity.
Qed.

Lemma scan_stream_safe (info : MediaInfo) (stream : pyval) :
  (exists info', scan_stream E info stream = Ok info')
  <-> stream_safe E stream = true.
Proof.
  destruct stream as [| | | | |d];
    try (simpl; split; [intros (i & H); discriminate | discriminate]).
  unfold stream_safe.
  destruct (is_video_stream (PDict d)) eqn:Hvideo.
  - rewrite (scan_stream_video info d Hvideo).
    destruct (eval_value E (obj_get "r_frame_rate" d (PStr "0/1"))).
    + split; [reflexivity | intros _; eexists; reflexivity].
    + split; [intros (i & H); discriminate | discriminate].
  - destruct (scan_stream_other info d Hvideo) as (info' & Hscan & _).
    split; [reflexivity | intros _; exists info'; exact Hscan].
Qed.

Lemma scan_streams_safe (streams : list pyval) :
  forall info,
    (exists info', scan_streams E info streams = Ok info')
    <-> forallb (stream_safe E) streams = true.
Proof.
  induction streams as [|stream rest IH]; intros info; simpl.
  - split; [reflexivity | intros _; exists info; reflexivity].
  - rewrite andb_true_iff, <- (scan_stream_safe info stream).
    destruct (scan_stream E info stream) as [info1|e] eqn:Hone; simpl.
    + rewrite (IH info1). split.
      * intros H. split; [exists info1; reflexivity | exact H].
      * intros [_ H]. exact H.
    + split; [intros (i & H); discriminate | intros [(i & H) _]; discriminate].
Qed.

Lemma scan_streams_app (a b : list pyval) :
  forall info,
    scan_streams E info (a ++ b)%list
    = rbind (scan_streams E info a) (fun info' => scan_streams E info' b).
Proof.
  induction a as [|stream rest IH]; intros info; simpl; [reflexivity|].
  destruct (scan_stream E info stream); simpl; [apply IH | reflexivity].
Qed.

Lemma scan_stream_duration (info info' : MediaInfo) (stream : pyval) :
  scan_stream E info stream = Ok info' -> duration info' = duration info.
Proof.
  destruct stream as [| | | | |d]; try discriminate.
  destruct (is_video_stream (PDict d)) eqn:Hvideo.
  - rewrite (scan_stream_video info d Hvideo).
    destruct (eval_value E (obj_get "r_frame_rate" d (PStr "0/1"))); [|discriminate].
    intros H. inversion H. reflexivity.
  - destruct (scan_stream_other info d Hvideo) as (i & Hscan & _ & _ & _ & _ & Hd).
    rewrite Hscan. intros H. inversion H; subst. exact Hd.
Qed.

Lemma scan_streams_duration (streams : list pyval) :
  forall info info',
    scan_streams E info streams = Ok info' -> duration info' = duration info.
Proof.
  induction streams as [|stream rest IH]; intros info info'; simpl.
  - intros H. inversion H. reflexivity.
  - destruct (scan_stream E info stream) as [info1|e] eqn:Hone; simpl; [|discriminate].
    intros H. rewrite (IH _ _ H). apply (scan_stream_duration _ _ _ Hone).
Qed.

(** Streams that are objects and do not say video leave the video fields as
    they were. *)
Lemma scan_streams_others (streams : list pyval) :
  forall info,
    forallb (fun s => stream_safe E s && negb (is_video_stream s)) streams = true ->
    exists info',
      scan_streams E info streams = Ok info'
      /\ fps info' = fps info /\ video_codec info' = video_codec info
      /\ width info' = width info /\ height info' = height info.
Proof.
  induction streams as [|stream rest IH]; intros info; simpl.
  - intros _. exists info. repeat split; reflexivity.
  - rewrite !andb_true_iff. intros [[Hsafe Hother] Hrest].
    apply negb_true_iff in Hother.
    destruct stream as [| | | | |d]; try discriminate.
    destruct (scan_stream_other info d Hother)
      as (info1 & Hscan & Hf & Hc & Hw & Hh & _).
    rewrite Hscan. simpl.
    destruct (IH info1 Hrest) as (info' & Hscan' & Hf' & Hc' & Hw' & Hh').
    exists info'. repeat split; congruence.
Qed.

(** When ffprobe printed a JSON object, the prober's answer is the stream
    loop's, with the duration put in. *)
Lemma get_media_info_document (fs : filesystem) (p : Path)
    (d : list (string * pyval)) (streams : list pyval) :
  ffprobe E fs p = ProbeExited 0 (Document (PDict d)) ->
  obj_get "streams" d (PList []) = PList streams ->
  get_media_info E fs p
  = match scan_streams E initial_info streams with
    | Ok info =>
        Ok {| duration :=
                match read_duration E (PDict d) with
                | Some q => Some q
                | None => duration info
                end;
              video_codec := video_codec info; width := width info;
              height := height info; fps := fps info;
              audio_codec := audio_codec info |}
    | Raise e => Raise e
    end.
Proof.
  intros Hprobe Hstreams. unfold get_media_info. rewrite Hprobe. simpl.
  rewrite Hstreams. simpl.
  destruct (scan_streams E initial_info streams) as [info|e]; simpl; [|reflexivity].
  destruct (read_duration E (PDict d)); [reflexivity|].
  destruct info; reflexivity.
Qed.

End StreamLoop.



(** X3: a file with no video stream (an audio file taken for a clip, say)
    is probed without a frame rate, so it counts with rate 0. *)
Theorem no_video_stream_reads_as_rate_zero (E : Env) (fs : filesystem) (p : Path)
    (d : list (string * pyval)) (streams : list pyval) :
  ffprobe E fs p = ProbeExited 0 (Document (PDict d)) ->
  obj_get "streams" d (PList []) = PList streams ->
  forallb (fun s => stream_safe E s && negb (is_video_stream s)) streams = true ->
  exists info,
    get_media_info E fs p = Ok info
    /\ fps info = None /\ video_codec info = None
    /\ info_fps info = PyInt 0
    /\ probed_rates E fs [p] = Ok [PyInt 0].
Proof.
  intros Hprobe Hstreams Hothers.
  assert (Hinfo : exists info, get_media_info E fs p = Ok info
                               /\ fps info = None /\ video_codec info = None).
  { rewrite (get_media_info_document E fs p d _ Hprobe Hstreams).
    destruct (scan_streams_others E streams initial_info Hothers)
      as (info & Hscan & Hf & Hc & _).
    rewrite Hscan. eexists. split; [reflexivity|]. simpl. auto. }
  destruct Hinfo as (info & Hget & Hf & Hc).
  exists info. repeat split; auto.
  - unfold info_fps. rewrite Hf. reflexivity.
  - simpl. rewrite Hget. simpl. unfold info_fps. rewrite Hf. reflexivity.
Qed.

(** ** Ties and exceptions in the analyzer *)

(** max with a key scans from the left and keeps the first greatest item:
    what precedes it is strictly smaller, what follows is not greater. *)
Lemma max_by_first {A : Type} (key : A -> nat) (items : list A) :
  forall (best : A) (done mid : list A),
    (forall y, In y done -> key y < key best) ->
    (forall y, In y mid -> key y <= key best) ->
    exists l1 l2,
      (done ++ best :: mid ++ items)%list
      = (l1 ++ max_by key best items :: l2)%list
      /\ (forall y, In y l1 -> key y < key (max_by key best items))
      /\ (forall y, In y l2 -> key y <= key (max_by key best items)).
Proof.
  induction items as [|x t IH]; intros best done mid Hdone Hmid; simpl.
  - exists done, mid. rewrite app_nil_r. auto.
  - destruct (key best <? key x)%nat eqn:Hlt.
    + apply Nat.ltb_lt in Hlt.
      destruct (IH x (done ++ best :: mid)%list []) as (l1 & l2 & Heq & H1 & H2).
      * intros y Hy. apply in_app_or in Hy. destruct Hy as [Hy | [<- | Hy]].
        -- specialize (Hdone y Hy). lia.
        -- exact Hlt.
        -- specialize (Hmid y Hy). lia.
      * intros y [].
      * exists l1, l2. split; [|auto].
        rewrite <- Heq. simpl. rewrite <- app_assoc. reflexivity.
    + apply Nat.ltb_ge in Hlt.
      destruct (IH best done (mid ++ [x])%list Hdone) as (l1 & l2 & Heq & H1 & H2).
      * intros y Hy. apply in_app_or in Hy. destruct Hy as [Hy | [<- | []]]; auto.
      * exists l1, l2. split; [|auto].
        rewrite <- Heq. rewrite <- app_assoc. reflexivity.
Qed.

Lemma keys_add_rate (h : histogram) (r : pynum) :
  map fst (add_rate h r) = map fst h
  \/ map fst (add_rate h r) = (map fst h ++ [r])%list.
Proof.
  unfold add_rate. generalize (counts_get r h 0 + 1). intros v.
  induction h as [|[k c] t IH]; simpl.
  - right. reflexivity.
  - destruct (num_eqb k r); simpl.
    + left. reflexivity.
    + destruct IH as [IH | IH]; rewrite IH; auto.
Qed.

Lemma fold_left_snoc {A B : Type} (f : A -> B -> A) (l : list B) (x : B) (a : A) :
  fold_left f (l ++ [x])%list a = f (fold_left f l a) x.
Proof. rewrite fold_left_app. reflexivity. Qed.

Lemma seen_rate_has_key (rates : list pynum) (y : pynum) :
  In y rates ->
  exists k, In k (map fst (fold_left add_rate rates [])) /\ num_val k = num_val y.
Proof.
  intros Hy. apply counts_get_key.
  rewrite counts_get_tally. simpl.
  pose proof (occurrences_member _ _ Hy). lia.
Qed.

(** Where a key stands in the dict tells where its rate first stands in the
    list: every rate before it has its key before it. *)
Lemma key_position (rates : list pynum) :
  forall l1 m l2,
    map fst (fold_left add_rate rates []) = (l1 ++ m :: l2)%list ->
    exists before after,
      rates = (before ++ m :: after)%list
      /\ forall y, In y before -> exists k, In k l1 /\ num_val k = num_val y.
Proof.
  induction rates as [|r init IH] using rev_ind; intros l1 m l2 Hkeys.
  - simpl in Hkeys. destruct l1; discriminate.
  - rewrite fold_left_snoc in Hkeys.
    destruct (keys_add_rate (fold_left add_rate init []) r) as [Hsame | Hnew].
    + rewrite Hsame in Hkeys.
      destruct (IH _ _ _ Hkeys) as (before & after & Hinit & Hcover).
      exists before, (after ++ [r])%list. split; [|exact Hcover].
      rewrite Hinit, <- app_assoc. reflexivity.
    + rewrite Hnew in Hkeys.
      destruct l2 as [|z l2'] using rev_ind.
      * apply (app_inj_tail _ l1 r m) in Hkeys. destruct Hkeys as [Hl1 <-].
        exists init, []. split; [reflexivity|].
        intros y Hy. rewrite <- Hl1. apply seen_rate_has_key. exact Hy.
      * clear IHl2'.
        replace (l1 ++ m :: l2' ++ [z])%list with ((l1 ++ m :: l2') ++ [z])%list
          in Hkeys by (rewrite <- app_assoc; reflexivity).
        apply app_inj_tail in Hkeys. destruct Hkeys as [Hkeys _].
        destruct (IH _ _ _ Hkeys) as (before & after & Hinit & Hcover).
        exists before, (after ++ [r])%list. split; [|exact Hcover].
        rewrite Hinit, <- app_assoc. reflexivity.
Qed.

Lemma tally_raises (E : Env) (fs : filesystem) (videos : list Path) (e : exn) :
  forall h, probed_rates E fs videos = Raise e -> tally E fs videos h = Raise e.
Proof.
  induction videos as [|v t IH]; simpl; intros h H; [discriminate|].
  destruct (get_media_info E fs v); simpl in *; [|inversion H; reflexivity].
  destruct (probed_rates E fs t) as [rs|e'] eqn:Ht; simpl in H; [discriminate|].
  inversion H; subst. apply IH. reflexivity.
Qed.

Lemma analyzer_returns (E : Env) (fs : filesystem) (videos : list Path)
    (rates : list pynum) :
  probed_rates E fs videos = Ok rates ->
  exists answer, find_majority_frame_rate E fs videos = Ok answer.
Proof.
  intros Hrates.
  destruct (le_lt_dec 2 (List.length videos)) as [Hlen | Hlen].
  - rewrite (analyzer_on_rates E fs videos rates Hlen Hrates).
    destruct (fold_left add_rate rates []) as [|[k v] t]; eexists; reflexivity.
  - unfold find_majority_frame_rate.
    destruct videos as [|v [|v' t]]; simpl in *; try lia.
    + eexists; reflexivity.
    + destruct (get_media_info E fs v); simpl in *; [|discriminate].
      eexists; reflexivity.
Qed.

Lemma analyzer_raises (E : Env) (fs : filesystem) (videos : list Path) (e : exn) :
  probed_rates E fs videos = Raise e ->
  find_majority_frame_rate E fs videos = Raise e.
Proof.
  intros Hrates. unfold find_majority_frame_rate.
  destruct (List.length videos <? 2)%nat eqn:Hlen.
  - destruct videos as [|v t]; simpl in Hrates; [discriminate|].
    destruct (get_media_info E fs v); simpl in *;
      [|inversion Hrates; reflexivity].
    destruct t; simpl in *; [discriminate|].
    apply Nat.ltb_lt in Hlen. simpl in Hlen. lia.
  - rewrite (tally_raises E fs videos e [] Hrates). reflexivity.
Qed.

(** X4: with two files or more whose probes return, the majority returned is
    one of the probed rates, no rate occurs more often, and every rate
    probed before its first occurrence occurs strictly less often: among
    equally frequent rates the one met first wins. *)
Theorem majority_is_first_most_frequent (E : Env) (fs : filesystem)
    (videos : list Path) (rates : list pynum) :
  2 <= List.length videos ->
  probed_rates E fs videos = Ok rates ->
  exists (is_compatible : bool) (majority : pynum) (before after : list pynum),
    find_majority_frame_rate E fs videos = Ok (is_compatible, majority)
    /\ rates = (before ++ majority :: after)%list
    /\ (forall x, In x rates -> occurrences x rates <= occurrences majority rates)
    /\ (forall y, In y before -> occurrences y rates < occurrences majority rates).
Proof.
  intros Hlen Hrates.
  rewrite (analyzer_on_rates E fs videos rates Hlen Hrates).
  pose proof (probed_rates_length E fs videos rates Hrates) as Hl.
  destruct (fold_left add_rate rates []) as [|[k v] t] eqn:Hh.
  - destruct rates as [|r0 rest]; [simpl in Hl; lia|].
    exfalso. apply (histogram_nonempty (r0 :: rest) r0); simpl; auto.
  - set (h := (k, v) :: t) in *.
    set (key := fun r => counts_get r h 0).
    assert (Hkey : forall x, key x = occurrences x rates).
    { intros x. unfold key. rewrite <- Hh, counts_get_tally. reflexivity. }
    destruct (max_by_first key (map fst t) k [] [])
      as (l1 & l2 & Hsplit & Hless & Hmore); try (intros y []).
    simpl in Hsplit. set (m := max_by key k (map fst t)) in *.
    assert (Hkeys : map fst (fold_left add_rate rates []) = (l1 ++ m :: l2)%list).
    { rewrite Hh. exact Hsplit. }
    destruct (key_position rates l1 m l2 Hkeys) as (before & after & Hwhere & Hcover).
    exists (List.length h =? 1)%nat, m, before, after.
    split; [reflexivity|]. split; [exact Hwhere|]. split.
    + intros x Hx.
      destruct (seen_rate_has_key rates x Hx) as (kx & Hin & Hv).
      rewrite Hkeys in Hin.
      rewrite <- (occurrences_same_rate kx x rates Hv), <- !Hkey.
      apply in_app_or in Hin. destruct Hin as [Hin | [<- | Hin]].
      * specialize (Hless kx Hin). lia.
      * lia.
      * apply Hmore. exact Hin.
    + intros y Hy. destruct (Hcover y Hy) as (ky & Hin & Hv).
      rewrite <- (occurrences_same_rate ky y rates Hv), <- !Hkey.
      apply Hless. exact Hin.
Qed.

(** X5: the analyzer raises exactly when a probe raises, and then with the
    exception of the first probe that does. *)
Theorem analyzer_raises_iff_probe_raises (E : Env) (fs : filesystem)
    (videos : list Path) (e : exn) :
  find_majority_frame_rate E fs videos = Raise e
  <-> probed_rates E fs videos = Raise e.
Proof.
  split.
  - intros Hfind. destruct (probed_rates E fs videos) as [rates|e'] eqn:Hrates.
    + destruct (analyzer_returns E fs videos rates Hrates) as (answer & Hok).
      congruence.
    + rewrite (analyzer_raises E fs videos e' Hrates) in Hfind. congruence.
  - apply analyzer_raises.
Qed.

(** ** Discovery *)

Lemma path_leb_total (a b : Path) : path_leb a b = false -> path_leb b a = true.
Proof.
  unfold path_leb. intros H.
  destruct (String.leb_total (lower a) (lower b)) as [Hab | Hba]; congruence.
Qed.

Lemma insert_sorted_permutation (x : Path) (l : list Path) :
  Permutation (x :: l) (insert_sorted x l).
Proof.
  induction l as [|y t IH]; simpl; [reflexivity|].
  destruct (path_leb x y); [reflexivity|].
  rewrite perm_swap. apply perm_skip. exact IH.
Qed.

Lemma sorted_permutation (l : list Path) : Permutation l (sorted l).
Proof.
  unfold sorted. induction l as [|x t IH]; simpl; [reflexivity|].
  rewrite <- insert_sorted_permutation. apply perm_skip. exact IH.
Qed.

Lemma insert_sorted_head (x y : Path) (l : list Path) :
  HdRel (fun a b => path_leb a b = true) y l ->
  path_leb y x = true ->
  HdRel (fun a b => path_leb a b = true) y (insert_sorted x l).
Proof.
  intros Hhd Hyx. destruct l as [|z t]; simpl.
  - constructor. exact Hyx.
  - destruct (path_leb x z); constructor; [exact Hyx|].
    inversion Hhd. assumption.
Qed.

Lemma insert_sorted_ordered (x : Path) (l : list Path) :
  Sorted (fun a b => path_leb a b = true) l ->
  Sorted (fun a b => path_leb a b = true) (insert_sorted x l).
Proof.
  induction l as [|y t IH]; simpl; intros Hs.
  - repeat constructor.
  - destruct (path_leb x y) eqn:Hxy.
    + constructor; [exact Hs | constructor; exact Hxy].
    + inversion Hs; subst. constructor; [apply IH; assumption|].
      apply insert_sorted_head; [assumption | apply path_leb_total; exact Hxy].
Qed.

Lemma sorted_ordered (l : list Path) :
  Sorted (fun a b => path_leb a b = true) (sorted l).
Proof.
  unfold sorted. induction l as [|x t IH]; simpl.
  - constructor.
  - apply insert_sorted_ordered. exact IH.
Qed.


(** X7: the music file main takes is the first entry of the Music folder's
    listing that has an audio suffix, in the order the folder is listed:
    nothing sorts the listing. *)
Theorem music_is_first_audio_entry (entries : list Path) (music : Path)
    (others : list Path) :
  discover_music entries = music :: others ->
  exists before after,
    entries = (before ++ music :: after)%list
    /\ Forall (fun f => is_music f = false) before
    /\ is_music music = true
    /\ others = discover_music after.
Proof.
  unfold discover_music. induction entries as [|f rest IH]; simpl; [discriminate|].
  destruct (is_music f) eqn:Hf.
  - intros H. inversion H; subst. exists [], rest. repeat split; auto.
  - intros H. destruct (IH H) as (before & after & Hrest & Hbefore & Hm & Ho).
    exists (f :: before), after. rewrite Hrest. repeat split; auto.
Qed.

(** ** Runs of main *)

Section Runs.

Variable E : Env.

(** Once videos and music are found, main is the analysis followed by the
    two paths. *)
Lemma main_after_discovery (w : world) (entries music_entries : list Path)
    (music : Path) (others : list Path) :
  iterdir E (disk w) VIDEO_DIR = Ok entries ->
  discover_videos entries <> [] ->
  iterdir E (disk w) MUSIC_DIR = Ok music_entries ->
  discover_music music_entries = music :: others ->
  main E w
  = match find_majority_frame_rate E (disk w) (discover_videos entries) with
    | Raise e => (Raise e, w)
    | Ok (compatible, majority) =>
        bind (if compatible
              then fast_path E (discover_videos entries) music
              else ret false)
             (fun is_compatible =>
                if negb is_compatible
                then transcode_path E (discover_videos entries) music majority
                else ret tt) w
    end.
Proof.
  intros Hdir Hvideos Hmdir Hmusic.
  unfold main, bind at 1, look. simpl. rewrite Hdir.
  destruct (discover_videos entries) as [|v vs] eqn:Hv; [congruence|].
  unfold bind at 1. simpl. rewrite Hmdir, Hmusic.
  unfold bind at 1. simpl.
  destruct (find_majority_frame_rate E (disk w) (v :: vs)) as [[c m]|e];
    reflexivity.
Qed.

Lemma merge_returns_log (concat : Path) (music : option Path) (out : Path)
    (hw : bool) (w w1 : world) :
  merge_videos_with_music E concat music out hw w = (Ok tt, w1) ->
  exists (has_music : bool) (d : Qc),
    invocations w1
    = (invocations w ++ [merge_command E concat music out hw has_music d])%list
    /\ ffmpeg E (merge_command E concat music out hw has_music d) (disk w)
       = (Exited 0, disk w1).
Proof.
  unfold merge_videos_with_music, bind.
  set (has_music := music_present (disk w) music).
  destruct ((if has_music
             then look (fun fs => get_duration E fs (optional_path_str music))
             else ret 0%Qc) w) as [[d|e] w'] eqn:Hd; [|discriminate].
  assert (w' = w) as ->.
  { destruct has_music; unfold look, ret in Hd; inversion Hd; reflexivity. }
  unfold run_ffmpeg.
  destruct (ffmpeg E (merge_command E concat music out hw has_music d) (disk w))
    as [[|rc] fs'] eqn:Hrun; [discriminate|].
  destruct (rc =? 0)%Z eqn:Hrc; [|discriminate].
  apply Z.eqb_eq in Hrc. subst rc.
  intros H. inversion H; subst. exists has_music, d. simpl. auto.
Qed.

End Runs.

(** X8: when no entry of the project folder is a video, main returns
    normally and leaves the world as it was: nothing is probed, written or
    launched. *)
Theorem run_without_videos_does_nothing (E : Env) (w : world) (entries : list Path) :
  iterdir E (disk w) VIDEO_DIR = Ok entries ->
  forallb (fun f => negb (is_video f)) entries = true ->
  main E w = (Ok tt, w).
Proof.
  intros Hdir Hnone. unfold main, bind at 1, look. simpl. rewrite Hdir.
  assert (Hempty : discover_videos entries = []).
  { unfold discover_videos.
    replace (filter is_video entries) with (@nil Path); [reflexivity|].
    clear Hdir. induction entries as [|f rest IH]; simpl in *; [reflexivity|].
    apply andb_true_iff in Hnone. destruct Hnone as [Hf Hrest].
    apply negb_true_iff in Hf. rewrite Hf. apply IH. exact Hrest. }
  rewrite Hempty. reflexivity.
Qed.

(** X9: when videos are found but no entry of the Music folder has an audio
    suffix, main returns normally and leaves the world as it was; the videos
    are not even probed, so a clip that would make the prober raise does no
    harm here. *)
Theorem run_without_music_does_nothing (E : Env) (w : world)
    (entries music_entries : list Path) :
  iterdir E (disk w) VIDEO_DIR = Ok entries ->
  discover_videos entries <> [] ->
  iterdir E (disk w) MUSIC_DIR = Ok music_entries ->
  forallb (fun f => negb (is_music f)) music_entries = true ->
  main E w = (Ok tt, w).
Proof.
  intros Hdir Hvideos Hmdir Hnone.
  unfold main, bind at 1, look. simpl. rewrite Hdir.
  destruct (discover_videos entries) as [|v vs]; [congruence|].
  unfold bind at 1. simpl. rewrite Hmdir.
  assert (Hempty : discover_music music_entries = []).
  { unfold discover_music. clear Hmdir.
    induction music_entries as [|f rest IH]; simpl in *; [reflexivity|].
    apply andb_true_iff in Hnone. destruct Hnone as [Hf Hrest].
    apply negb_true_iff in Hf. rewrite Hf. apply IH. exact Hrest. }
  rewrite Hempty. reflexivity.
Qed.

(** X10: when videos and music are found and the probe of some video
    raises, main ends in that exception with the world as it was: no
    manifest is written and ffmpeg is never launched. *)
Theorem raising_probe_aborts_run (E : Env) (w : world)
    (entries music_entries : list Path) (music : Path) (others : list Path)
    (e : exn) :
  iterdir E (disk w) VIDEO_DIR = Ok entries ->
  discover_videos entries <> [] ->
  iterdir E (disk w) MUSIC_DIR = Ok music_entries ->
  discover_music music_entries = music :: others ->
  probed_rates E (disk w) (discover_videos entries) = Raise e ->
  main E w = (Raise e, w).
Proof.
  intros Hdir Hvideos Hmdir Hmusic Hprobe.
  rewrite (main_after_discovery E w entries music_entries music others
             Hdir Hvideos Hmdir Hmusic).
  rewrite (analyzer_raises E (disk w) _ e Hprobe). reflexivity.
Qed.

(** X11: when the analysis says compatible and the stream-copy merge
    returns, main returns with exactly one ffmpeg launch, that merge in its
    software form, ended with status 0; no clip is transcoded. *)
Theorem compatible_run_launches_one_merge (E : Env) (w w1 : world)
    (entries music_entries : list Path) (music : Path) (others : list Path)
    (majority : pynum) :
  iterdir E (disk w) VIDEO_DIR = Ok entries ->
  discover_videos entries <> [] ->
  iterdir E (disk w) MUSIC_DIR = Ok music_entries ->
  discover_music music_entries = music :: others ->
  find_majority_frame_rate E (disk w) (discover_videos entries)
    = Ok (true, majority) ->
  merge_videos_with_music E concat_list_path (Some music) OUTPUT_PATH false
    (snd (create_concatenation_list (discover_videos entries) w))
    = (Ok tt, w1) ->
  main E w = (Ok tt, w1)
  /\ exists (has_music : bool) (d : Qc),
       invocations w1
       = (invocations w
          ++ [merge_command E concat_list_path (Some music) OUTPUT_PATH false
                            has_music d])%list.
Proof.
  intros Hdir Hvideos Hmdir Hmusic Hanalysis Hmerge. split.
  - rewrite (main_after_discovery E w entries music_entries music others
               Hdir Hvideos Hmdir Hmusic).
    rewrite Hanalysis. unfold bind at 1, fast_path, bind at 1.
    unfold create_concatenation_list at 1.
    unfold except_RuntimeError, bind at 1.
    unfold create_concatenation_list in Hmerge. cbn [snd] in Hmerge.
    rewrite Hmerge. reflexivity.
  - destruct (merge_returns_log E _ _ _ _ _ _ Hmerge) as (has_music & d & Hlog & _).
    exists has_music, d. exact Hlog.
Qed.

(** ** More on the Merger *)

Lemma merge_probe_raises (E : Env) (concat music out : Path) (hw : bool)
    (w : world) (e : exn) :
  path_exists (disk w) music = true ->
  get_duration E (disk w) music = Raise e ->
  merge_videos_with_music E concat (Some music) out hw w = (Raise e, w).
Proof.
  intros Hthere Hd. unfold merge_videos_with_music, music_present.
  rewrite Hthere. unfold bind, look. simpl. rewrite Hd. reflexivity.
Qed.

(** X12: only RuntimeError leads to the fallback.  When the analysis says
    compatible and probing the music file raises another exception, main
    ends in that exception right after writing the manifest: ffmpeg is not
    launched and the transcode path is not tried. *)
Theorem music_probe_exception_escapes (E : Env) (w : world)
    (entries music_entries : list Path) (music : Path) (others : list Path)
    (majority : pynum) (e : exn) :
  iterdir E (disk w) VIDEO_DIR = Ok entries ->
  discover_videos entries <> [] ->
  iterdir E (disk w) MUSIC_DIR = Ok music_entries ->
  discover_music music_entries = music :: others ->
  find_majority_frame_rate E (disk w) (discover_videos entries)
    = Ok (true, majority) ->
  path_exists
    (disk (snd (create_concatenation_list (discover_videos entries) w))) music
    = true ->
  get_duration E
    (disk (snd (create_concatenation_list (discover_videos entries) w))) music
    = Raise e ->
  e <> RuntimeError ->
  main E w = (Raise e, snd (create_concatenation_list (discover_videos entries) w))
  /\ invocations (snd (main E w)) = invocations w.
Proof.
  intros Hdir Hvideos Hmdir Hmusic Hanalysis Hthere Hprobe Hother.
  assert (Hmain : main E w
                  = (Raise e,
                     snd (create_concatenation_list (discover_videos entries) w))).
  { rewrite (main_after_discovery E w entries music_entries music others
               Hdir Hvideos Hmdir Hmusic).
    rewrite Hanalysis. unfold bind at 1, fast_path, bind at 1.
    pose proof (merge_probe_raises E concat_list_path music OUTPUT_PATH false
                  _ e Hthere Hprobe) as Hmerge.
    unfold create_concatenation_list at 1.
    unfold except_RuntimeError, bind at 1.
    unfold create_concatenation_list in Hmerge. cbn [snd] in Hmerge.
    rewrite Hmerge. destruct e; try reflexivity. congruence. }
  split; [exact Hmain|]. rewrite Hmain. reflexivity.
Qed.

(** X13: without a music file on disk the Merger does not probe anything and
    runs the plain concatenation: no second input, no filter, no -shortest;
    the flag alone picks copy or h264_nvenc. *)
Theorem merge_without_music_is_plain (E : Env) (concat : Path)
    (music : option Path) (out : Path) (hw : bool) (w : world) :
  music_present (disk w) music = false ->
  merge_videos_with_music E concat music out hw w
  = run_ffmpeg E
      (["ffmpeg"; "-y"; "-f"; "concat"; "-safe"; "0"; "-i"; concat]
       ++ (if hw then ["-c:v"; "h264_nvenc"; "-c:a"; "aac"; "-preset"; "p5"]
           else ["-c:v"; "copy"; "-c:a"; "aac"])
       ++ [out])%list
      0%Qc w.
Proof.
  intros Habsent. unfold merge_videos_with_music. rewrite Habsent.
  unfold bind, ret, merge_command. simpl. destruct hw; reflexivity.
Qed.

(** X14: when the music file is there but its probe fails in a guarded way,
    its duration reads 0 and the Merger leaves out trim and fade: it maps
    the video of the clips and the audio of the music and stops at the
    shorter of the two. *)
Theorem merge_with_unreadable_music_uses_shortest (E : Env) (concat music out : Path)
    (hw : bool) (w : world) :
  path_exists (disk w) music = true ->
  get_media_info E (disk w) music = Ok empty_info ->
  merge_videos_with_music E concat (Some music) out hw w
  = run_ffmpeg E
      (["ffmpeg"; "-y"; "-f"; "concat"; "-safe"; "0"; "-i"; concat;
        "-i"; music; "-map"; "0:v"; "-map"; "1:a"; "-shortest"]
       ++ (if hw then ["-c:v"; "h264_nvenc"; "-c:a"; "aac"; "-preset"; "p5"]
           else ["-c:v"; "copy"; "-c:a"; "aac"])
       ++ [out])%list
      0%Qc w.
Proof.
  intros Hthere Hprobe.
  rewrite (merge_with_music_runs E concat music out hw w 0%Qc Hthere).
  - unfold merge_command. simpl. destruct hw; reflexivity.
  - unfold get_duration. rewrite Hprobe. reflexivity.
Qed.

(** ** More on the Transcoder *)

Section Transcoding.

Variable E : Env.

Lemma transcode_video_cached (input : Path) (target : option pynum) (w : world) :
  path_exists (disk w) (transcode_output E input target) = true ->
  transcode_video E input target w = (Ok (transcode_output E input target), w).
Proof. intros H. unfold transcode_video. rewrite H. reflexivity. Qed.

(** What a call that has to encode does, by how ffmpeg ends. *)
Lemma transcode_video_encodes (input : Path) (target : option pynum) (w : world) :
  path_exists (disk w) (transcode_output E input target) = false ->
  transcode_video E input target w
  = let (ending, disk') := ffmpeg E (transcode_command E input target) (disk w) in
    let w' := {| disk := disk';
                 invocations := (invocations w
                                 ++ [transcode_command E input target])%list |} in
    match ending with
    | Exited 0 => (Ok (transcode_output E input target), w')
    | _ => (Raise RuntimeError, w')
    end.
Proof.
  intros H. unfold transcode_video. rewrite H. unfold bind, run_ffmpeg, ret.
  destruct (ffmpeg E (transcode_command E input target) (disk w)) as [[|rc] fs'].
  - reflexivity.
  - destruct rc as [|rc|rc]; reflexivity.
Qed.

End Transcoding.

(** X15: two inputs with the same stem (clip.mp4 and clip.mov, say) share
    one output path: once the first is transcoded, with an encoder that has
    written its output when it ends with status 0, the second is answered
    with the first one's file and is never encoded. *)
Theorem same_stem_is_transcoded_once (E : Env) (first second : Path)
    (target : option pynum) (w w1 : world) (p : Path) :
  stem first = stem second ->
  (forall fs fs',
      ffmpeg E (transcode_command E first target) fs = (Exited 0, fs') ->
      path_exists fs' (transcode_output E first target) = true) ->
  transcode_video E first target w = (Ok p, w1) ->
  transcode_video E second target w1 = (Ok p, w1).
Proof.
  intros Hstem Hwrites Hfirst.
  assert (Hsame : transcode_output E second target = transcode_output E first target).
  { unfold transcode_output. rewrite Hstem. reflexivity. }
  assert (Hdone : p = transcode_output E first target
                  /\ path_exists (disk w1) (transcode_output E first target) = true).
  { destruct (path_exists (disk w) (transcode_output E first target)) eqn:Hthere.
    - rewrite (transcode_video_cached E first target w Hthere) in Hfirst.
      inversion Hfirst; subst. auto.
    - rewrite (transcode_video_encodes E first target w Hthere) in Hfirst.
      destruct (ffmpeg E (transcode_command E first target) (disk w))
        as [[|rc] fs'] eqn:Hrun; [discriminate|].
      destruct rc as [|rc|rc]; try discriminate.
      inversion Hfirst; subst. simpl. split; [reflexivity|].
      apply (Hwrites _ _ Hrun). }
  destruct Hdone as [-> Hthere].
  rewrite <- Hsame in Hthere |- *.
  apply transcode_video_cached. exact Hthere.
Qed.

(** X16: nothing checks the file found at the output path.  When an encode
    fails but leaves a file there, the call raises RuntimeError, and the
    next call for the same input returns that file as the transcoded clip
    without launching ffmpeg. *)
Theorem failed_encode_output_is_reused (E : Env) (input : Path)
    (target : option pynum) (w : world) (rc : Z) (fs' : filesystem) :
  path_exists (disk w) (transcode_output E input target) = false ->
  ffmpeg E (transcode_command E input target) (disk w) = (Exited rc, fs') ->
  rc <> 0%Z ->
  path_exists fs' (transcode_output E input target) = true ->
  exists w1,
    transcode_video E input target w = (Raise RuntimeError, w1)
    /\ transcode_video E input target w1
       = (Ok (transcode_output E input target), w1)
    /\ invocations w1
       = (invocations w ++ [transcode_command E input target])%list.
Proof.
  intros Hmissing Hrun Hrc Hleft.
  rewrite (transcode_video_encodes E input target w Hmissing), Hrun.
  eexists. split.
  - destruct rc as [|rc|rc]; [congruence | reflexivity | reflexivity].
  - split; [|reflexivity]. apply transcode_video_cached. exact Hleft.
Qed.

(** ** The transcode loop *)

Section TranscodeLoop.

Variable E : Env.

Lemma transcode_video_returns_output (input : Path) (target : option pynum)
    (w w' : world) (p : Path) :
  transcode_video E input target w = (Ok p, w') ->
  p = transcode_output E input target.
Proof.
  destruct (path_exists (disk w) (transcode_output E input target)) eqn:Hthere.
  - rewrite (transcode_video_cached E input target w Hthere).
    intros H. inversion H. reflexivity.
  - rewrite (transcode_video_encodes E input target w Hthere).
    destruct (ffmpeg E (transcode_command E input target) (disk w)) as [[|rc] fs'];
      [discriminate|].
    destruct rc as [|rc|rc]; try discriminate.
    intros H. inversion H. reflexivity.
Qed.

Lemma transcode_each_survivors (videos : list Path) (majority : pynum) :
  forall transcoded w result w',
    transcode_each E videos majority transcoded w = (Ok result, w') ->
    exists survivors outputs,
      result = (transcoded ++ outputs)%list
      /\ subsequence survivors videos
      /\ Forall2 (fun video output =>
                    output = transcode_output E video None
                    \/ output = transcode_output E video (Some majority))
                 survivors outputs.
Proof.
  induction videos as [|video rest IH]; intros transcoded w result w'.
  - simpl. unfold ret. intros H. inversion H; subst.
    exists [], []. rewrite app_nil_r. repeat split; constructor.
  - rewrite transcode_each_step.
    destruct (get_media_info E (disk w) video) as [info|e]; [|discriminate].
    cbv zeta.
    set (target := if num_eqb (info_fps info) majority then None else Some majority).
    destruct (transcode_video E video target w) as [[output|e] w1] eqn:Hone.
    + intros H. destruct (IH _ _ _ _ H) as (survivors & outputs & Hres & Hsub & Hall).
      exists (video :: survivors), (output :: outputs).
      split; [rewrite Hres, <- app_assoc; reflexivity|].
      split; [constructor; exact Hsub|].
      constructor; [|exact Hall].
      rewrite (transcode_video_returns_output _ _ _ _ _ Hone).
      unfold target. destruct (num_eqb (info_fps info) majority); auto.
    + destruct e; try discriminate.
      intros H. destruct (IH _ _ _ _ H) as (survivors & outputs & Hres & Hsub & Hall).
      exists survivors, outputs. split; [exact Hres|].
      split; [constructor; exact Hsub | exact Hall].
Qed.

End TranscodeLoop.


(** ** A run without a usable ffmpeg *)

Lemma string_app_inv_head (a x y : string) : a ++ x = a ++ y -> x = y.
Proof.
  induction a as [|c a IH]; simpl; intros H; [exact H|].
  inversion H. apply IH. assumption.
Qed.

Lemma mp4_name_is_not_manifest (s : string) : s ++ ".mp4" <> "concat_list.txt".
Proof.
  intros H.
  do 16 (destruct s as [|? s]; [simpl in H; discriminate H|]).
  simpl in H. discriminate H.
Qed.

Lemma transcode_output_is_not_manifest (E : Env) (input : Path)
    (target : option pynum) :
  transcode_output E input target <> concat_list_path.
Proof.
  unfold transcode_output, concat_list_path, joinpath. intros H.
  apply string_app_inv_head in H. apply string_app_inv_head in H.
  rewrite <- !string_app_assoc in H.
  apply (mp4_name_is_not_manifest _ H).
Qed.

Lemma probes_return_rates (E : Env) (fs : filesystem) (videos : list Path) :
  (forall v, In v videos -> exists info, get_media_info E fs v = Ok info) ->
  exists rates, probed_rates E fs videos = Ok rates.
Proof.
  induction videos as [|v t IH]; intros Hprobes; simpl.
  - eexists; reflexivity.
  - destruct (Hprobes v (or_introl eq_refl)) as (info & Hinfo). rewrite Hinfo.
    destruct IH as (rates & Hrates).
    + intros v0 Hv0. apply Hprobes. right; exact Hv0.
    + rewrite Hrates. simpl. eexists; reflexivity.
Qed.

Section Unusable.

Variable E : Env.
Hypothesis Hunusable : ffmpeg_unusable E.

Lemma unusable_run_ffmpeg (command : list string) (total : Qc) (w : world) :
  run_ffmpeg E command total w
  = (Raise RuntimeError,
     {| disk := disk w; invocations := (invocations w ++ [command])%list |}).
Proof.
  unfold run_ffmpeg. destruct (Hunusable command (disk w)) as [Hdisk Hend].
  destruct (ffmpeg E command (disk w)) as [ending fs']. simpl in *. subst fs'.
  destruct ending as [|rc]; [reflexivity|].
  destruct (rc =? 0)%Z eqn:Hrc; [|reflexivity].
  apply Z.eqb_eq in Hrc. subst. congruence.
Qed.

Lemma unusable_transcode_each (majority : pynum) (videos : list Path) :
  forall transcoded w,
    (forall v, In v videos -> exists info, get_media_info E (disk w) v = Ok info) ->
    (forall v t, In v videos ->
                 path_exists (disk w) (transcode_output E v t) = false) ->
    exists commands,
      transcode_each E videos majority transcoded w
      = (Ok transcoded,
         {| disk := disk w; invocations := (invocations w ++ commands)%list |})
      /\ merges commands = []
      /\ List.length commands = List.length videos.
Proof.
  induction videos as [|video rest IH]; intros transcoded w Hprobes Hfresh.
  - exists []. simpl. unfold ret. rewrite app_nil_r. destruct w; auto.
  - rewrite transcode_each_step.
    destruct (Hprobes video (or_introl eq_refl)) as (info & Hinfo).
    rewrite Hinfo. cbv zeta.
    set (target := if num_eqb (info_fps info) majority then None else Some majority).
    rewrite (transcode_video_encodes E video target w
               (Hfresh video target (or_introl eq_refl))).
    pose proof (unusable_run_ffmpeg (transcode_command E video target) 0%Qc w) as Hrun.
    unfold run_ffmpeg in Hrun.
    destruct (ffmpeg E (transcode_command E video target) (disk w)) as [ending fs'].
    assert (Hw : (match ending with
                  | Exited 0 =>
                      (Ok (transcode_output E video target),
                       {| disk := fs';
                          invocations := (invocations w
                                          ++ [transcode_command E video target])%list |})
                  | _ =>
                      (Raise RuntimeError,
                       {| disk := fs';
                          invocations := (invocations w
                                          ++ [transcode_command E video target])%list |})
                  end)
                 = (@Raise Path RuntimeError,
                    {| disk := disk w;
                       invocations := (invocations w
                                       ++ [transcode_command E video target])%list |})).
    { destruct ending as [|rc].
      - inversion Hrun. reflexivity.
      - destruct rc as [|rc|rc]; simpl in Hrun; inversion Hrun; reflexivity. }
    cbv zeta. rewrite Hw.
    destruct (IH transcoded
                {| disk := disk w;
                   invocations := (invocations w
                                   ++ [transcode_command E video target])%list |})
      as (commands & Hrest & Hnone & Hlen).
    + intros v Hv. apply Hprobes. right; exact Hv.
    + intros v t Hv. apply Hfresh. right; exact Hv.
    + exists (transcode_command E video target :: commands).
      simpl in Hrest. rewrite Hrest, <- app_assoc. simpl.
      split; [reflexivity|]. split; [exact Hnone | simpl; lia].
Qed.

Lemma unusable_transcode_path (videos : list Path) (music : Path)
    (majority : pynum) (w : world) :
  (forall v, In v videos -> exists info, get_media_info E (disk w) v = Ok info) ->
  (forall v t, In v videos ->
               path_exists (disk w) (transcode_output E v t) = false) ->
  exists commands,
    transcode_path E videos music majority w
    = (Ok tt, {| disk := disk w; invocations := (invocations w ++ commands)%list |})
    /\ merges commands = []
    /\ List.length commands = List.length videos.
Proof.
  intros Hprobes Hfresh.
  destruct (unusable_transcode_each majority videos [] w Hprobes Hfresh)
    as (commands & Heach & Hnone & Hlen).
  exists commands. unfold transcode_path, bind. rewrite Heach. auto.
Qed.

Lemma unusable_merge (concat music out : Path) (hw : bool) (w : world) :
  (exists d, get_duration E (disk w) music = Ok d) ->
  exists command,
    merge_videos_with_music E concat (Some music) out hw w
    = (Raise RuntimeError,
       {| disk := disk w; invocations := (invocations w ++ [command])%list |})
    /\ is_merge_command command = true.
Proof.
  intros (d & Hd). unfold merge_videos_with_music, bind, look, ret.
  destruct (music_present (disk w) (Some music)); simpl.
  - rewrite Hd. rewrite unusable_run_ffmpeg. eexists. split; reflexivity.
  - rewrite unusable_run_ffmpeg. eexists. split; reflexivity.
Qed.

End Unusable.

(** X18: when ffmpeg cannot be used (it does not start, or always ends with
    a nonzero status, leaving the disk alone), the probes return and no
    transcoded file is there from before, main still returns normally: the
    merge failure is caught, every transcode fails and is passed over, no
    clip is left and main returns.  Only the manifest can have changed on
    disk, at most one merge was launched, and one encode per video at most. *)
Theorem run_without_usable_ffmpeg_returns (E : Env) (w : world)
    (entries music_entries : list Path) (music : Path) (others : list Path) :
  ffmpeg_unusable E ->
  iterdir E (disk w) VIDEO_DIR = Ok entries ->
  discover_videos entries <> [] ->
  iterdir E (disk w) MUSIC_DIR = Ok music_entries ->
  discover_music music_entries = music :: others ->
  (forall fs v, In v (discover_videos entries) ->
                exists info, get_media_info E fs v = Ok info) ->
  (forall fs, exists d, get_duration E fs music = Ok d) ->
  (forall v t, In v (discover_videos entries) ->
               path_exists (disk w) (transcode_output E v t) = false) ->
  exists w',
    main E w = (Ok tt, w')
    /\ (forall p, p <> concat_list_path -> disk w' p = disk w p)
    /\ exists commands,
         invocations w' = (invocations w ++ commands)%list
         /\ List.length (merges commands) <= 1
         /\ List.length commands <= 1 + List.length (discover_videos entries).
Proof.
  intros Hunusable Hdir Hvideos Hmdir Hmusic Hprobes Hmusicprobe Hfresh.
  rewrite (main_after_discovery E w entries music_entries music others
             Hdir Hvideos Hmdir Hmusic).
  set (videos := discover_videos entries) in *.
  assert (Hrates : exists answer,
             find_majority_frame_rate E (disk w) videos = Ok answer).
  { destruct (probes_return_rates E (disk w) videos) as (rates & Hr).
    - intros v Hv. apply Hprobes. exact Hv.
    - apply (analyzer_returns E (disk w) videos rates Hr). }
  destruct Hrates as ([compatible majority] & Hanswer). rewrite Hanswer.
  destruct compatible.
  - unfold bind at 1, fast_path, bind at 1.
    unfold create_concatenation_list at 1.
    unfold except_RuntimeError, bind at 1.
    match goal with
    | |- context [merge_videos_with_music E concat_list_path (Some music)
                    OUTPUT_PATH false ?w0] =>
        destruct (unusable_merge E Hunusable concat_list_path music OUTPUT_PATH
                    false w0 (Hmusicprobe (disk w0)))
          as (command & Hmerge & Hshape);
        rewrite Hmerge
    end.
    unfold ret. cbn [negb].
    match goal with
    | |- context [transcode_path E videos music majority ?w1] =>
        destruct (unusable_transcode_path E Hunusable videos music majority w1)
          as (commands & Hpath & Hnone & Hlen)
    end.
    + intros v Hv. apply Hprobes. exact Hv.
    + intros v t Hv. simpl. unfold path_exists, write_file.
      destruct (String.eqb_spec (transcode_output E v t) concat_list_path) as [Heq|_].
      * exfalso. apply (transcode_output_is_not_manifest E v t Heq).
      * apply (Hfresh v t Hv).
    + rewrite Hpath. eexists. split; [reflexivity|]. simpl. split.
      * intros p Hp. unfold write_file.
        destruct (String.eqb_spec p concat_list_path); [contradiction|reflexivity].
      * exists (command :: commands). rewrite <- app_assoc. simpl.
        split; [reflexivity|].
        rewrite Hshape, Hnone. simpl. lia.
  - unfold bind at 1, ret. cbn [negb].
    destruct (unusable_transcode_path E Hunusable videos music majority w)
      as (commands & Hpath & Hnone & Hlen).
    + intros v Hv. apply Hprobes. exact Hv.
    + exact Hfresh.
    + rewrite Hpath. eexists. split; [reflexivity|]. simpl. split; [reflexivity|].
      exists commands. rewrite Hnone. simpl. split; [reflexivity|]. lia.
Qed.

(** ** Reading the manifest back *)

Lemma prefix_empty (s : string) : prefix "" s = true.
Proof. destruct s; reflexivity. Qed.

Lemma prefix_split (old s : string) :
  prefix old s = true -> exists rest, s = old ++ rest.
Proof.
  revert s. induction old as [|a old IH]; intros s H.
  - exists s. reflexivity.
  - destruct s as [|b s]; simpl in H; [discriminate|].
    destruct (ascii_dec a b) as [<-|]; [|discriminate].
    destruct (IH s H) as (rest & ->). exists rest. reflexivity.
Qed.

Lemma string_length_app (a b : string) :
  String.length (a ++ b) = String.length a + String.length b.
Proof. induction a as [|c a IH]; simpl; [reflexivity|]. rewrite IH. reflexivity. Qed.

Lemma lstrip_length (s : string) : String.length (lstrip s) <= String.length s.
Proof.
  induction s as [|c s IH]; simpl; [lia|].
  destruct (is_space c); simpl; lia.
Qed.

Lemma rstrip_length (s : string) : String.length (rstrip s) <= String.length s.
Proof.
  induction s as [|c s IH]; simpl; [lia|].
  destruct (rstrip s); [destruct (is_space c)|]; simpl in *; lia.
Qed.

Lemma rstrip_trailing_space (s : string) (c : ascii) :
  is_space c = true -> rstrip (s ++ char c) = rstrip s.
Proof.
  intros Hc. induction s as [|x s IH]; simpl.
  - rewrite Hc. reflexivity.
  - rewrite IH. reflexivity.
Qed.

(** A text that strip leaves alone does not end in a space. *)
Lemma stripped_has_no_trailing_space (s q : string) (c : ascii) :
  is_space c = true -> strip s = s -> s <> q ++ char c.
Proof.
  intros Hc Hstrip ->.
  pose proof (lstrip_length (rstrip (q ++ char c))) as H1.
  fold (strip (q ++ char c)) in H1. rewrite Hstrip in H1.
  rewrite (rstrip_trailing_space q c Hc) in H1.
  pose proof (rstrip_length q) as H2.
  rewrite string_length_app in H1. simpl in H1. lia.
Qed.

Lemma no_file_marker_inside (p : string) :
  no_quote p = true ->
  (forall q, p <> q ++ "file ") ->
  replace_from "file '" "" 0 (p ++ "'" ++ char newline) = p ++ "'" ++ char newline.
Proof.
  induction p as [|c p IH]; intros Hq Hend; [reflexivity|].
  assert (Hno : prefix "file '" (String c p ++ "'" ++ char newline) = false).
  { destruct (prefix "file '" (String c p ++ "'" ++ char newline)) eqn:Hp;
      [|reflexivity].
    exfalso. apply prefix_split in Hp. destruct Hp as (rest & Hp).
    destruct p as [|c1 [|c2 [|c3 [|c4 [|c5 p]]]]]; simpl in Hp;
      inversion Hp; subst; try discriminate.
    apply (Hend ""). reflexivity. }
  change ((String c p) ++ "'" ++ char newline)
    with (String c (p ++ "'" ++ char newline)) in *.
  cbn [replace_from]. rewrite Hno. f_equal. apply IH.
  - unfold no_quote in *. simpl in Hq. apply andb_true_iff in Hq. tauto.
  - intros q ->. apply (Hend (String c q)). reflexivity.
Qed.

Lemma quotes_removed_after (p rest : string) :
  no_quote p = true ->
  replace_from "'" "" 0 (p ++ rest) = p ++ replace_from "'" "" 0 rest.
Proof.
  unfold no_quote. induction p as [|c p IH]; intros Hq; [reflexivity|].
  cbn [all_chars] in Hq. apply andb_true_iff in Hq. destruct Hq as [Hc Hp].
  cbn [append replace_from prefix].
  destruct (ascii_dec "'" c) as [<-|_]; [vm_compute in Hc; discriminate|].
  rewrite (IH Hp). reflexivity.
Qed.

(** The text handed to Path() for the line written for a path that has no
    apostrophe and no white space at its ends is the path's forward-slash
    text. *)
Lemma manifest_entry_of_line (video : Path) :
  no_quote (as_posix video) = true ->
  strip (as_posix video) = as_posix video ->
  manifest_entry (manifest_line video) = as_posix video.
Proof.
  intros Hq Hstrip. unfold manifest_entry, manifest_line.
  set (p := as_posix video) in *.
  assert (H1 : replace "file '" "" ("file '" ++ p ++ "'" ++ char newline)
               = p ++ "'" ++ char newline).
  { unfold replace. cbn [append replace_from]. simpl.
    rewrite prefix_empty. simpl.
    apply no_file_marker_inside; [exact Hq|].
    intros q Hend.
    apply (stripped_has_no_trailing_space p (q ++ "file") " "%char eq_refl Hstrip).
    rewrite Hend, string_app_assoc. reflexivity. }
  rewrite H1. unfold replace.
  rewrite (quotes_removed_after p _ Hq).
  change (replace_from "'" "" 0 ("'" ++ char newline)) with (char newline).
  unfold strip. rewrite (rstrip_trailing_space p newline eq_refl).
  exact Hstrip.
Qed.

Lemma file_lines_first (line rest : string) :
  single_line line = true ->
  file_lines (line ++ char newline ++ rest) = (line ++ char newline) :: file_lines rest.
Proof.
  unfold single_line.
  induction line as [|c line IH]; simpl.
  - intros _. reflexivity.
  - intros H. apply andb_true_iff in H. destruct H as [Hc Hl].
    apply negb_true_iff in Hc. rewrite Hc.
    simpl in IH. rewrite (IH Hl). reflexivity.
Qed.

Lemma file_lines_of_manifest (videos : list Path) :
  Forall (fun video => single_line video = true) videos ->
  file_lines (fold_left (fun text video => text ++ manifest_line video) videos "")
  = map manifest_line videos.
Proof.
  intros Hlines. induction Hlines as [|v t Hv Ht IH]; simpl; [reflexivity|].
  rewrite manifest_text_from. unfold manifest_line at 1.
  replace (("file '" ++ as_posix v ++ "'" ++ char newline)
           ++ fold_left (fun text video => text ++ manifest_line video) t "")
    with (("file '" ++ as_posix v ++ "'") ++ char newline
          ++ fold_left (fun text video => text ++ manifest_line video) t "")
    by (rewrite !string_app_assoc; reflexivity).
  rewrite file_lines_first.
  - rewrite IH. unfold manifest_line. rewrite !string_app_assoc. reflexivity.
  - rewrite !single_line_app, (single_line_as_posix v Hv). reflexivity.
Qed.


Lemma all_chars_lstrip (p : ascii -> bool) (s : string) :
  all_chars p s = true -> all_chars p (lstrip s) = true.
Proof.
  induction s as [|c s IH]; simpl; [reflexivity|].
  intros H. destruct (is_space c); [|exact H].
  apply andb_true_iff in H. apply IH. tauto.
Qed.

Lemma all_chars_rstrip (p : ascii -> bool) (s : string) :
  all_chars p s = true -> all_chars p (rstrip s) = true.
Proof.
  induction s as [|c s IH]; simpl; [reflexivity|].
  intros H. apply andb_true_iff in H. destruct H as [Hc Hs].
  specialize (IH Hs).
  destruct (rstrip s) as [|x kept].
  - destruct (is_space c); simpl; [reflexivity|]. rewrite Hc. reflexivity.
  - change (all_chars p (String c (String x kept)))
      with (p c && all_chars p (String x kept)).
    rewrite Hc, IH. reflexivity.
Qed.

Lemma quotes_all_removed (s : string) :
  forall skip, no_quote (replace_from "'" "" skip s) = true.
Proof.
  unfold no_quote. induction s as [|c s IH]; intros skip; [reflexivity|].
  destruct skip as [|k]; [|apply IH].
  cbn [replace_from prefix].
  destruct (ascii_dec "'" c) as [<-|Hc].
  - rewrite prefix_empty. apply IH.
  - simpl. rewrite IH, andb_true_r.
    apply negb_true_iff. apply Ascii.eqb_neq.
    intros Heq. apply Hc. rewrite Heq. reflexivity.
Qed.

(** X20: an apostrophe does not survive the reading back: the text handed
    to Path() never has one, so for a path with an apostrophe in it the
    file probed is another one than the file listed. *)
Theorem apostrophe_is_lost_reading_back (video : Path) :
  no_quote (as_posix video) = false ->
  manifest_entry (manifest_line video) <> as_posix video
  /\ no_quote (manifest_entry (manifest_line video)) = true.
Proof.
  intros Hquote.
  assert (Hclean : no_quote (manifest_entry (manifest_line video)) = true).
  { unfold manifest_entry, strip, no_quote.
    apply all_chars_lstrip, all_chars_rstrip.
    unfold replace at 1. apply quotes_all_removed. }
  split; [|exact Hclean].
  intros Heq. rewrite Heq in Hclean. congruence.
Qed.

(** ** Frame rates as fractions, and a majority of zero *)

Lemma decimal_literal_digits (s : string) (n : N) :
  decimal_literal s = Some n -> all_chars is_digit s = true.
Proof.
  unfold decimal_literal. destruct s as [|c s]; [discriminate|].
  destruct (all_chars is_digit (String c s)); [reflexivity | discriminate].
Qed.

Lemma cut_after_digits (a b : string) :
  all_chars is_digit a = true -> cut slash (a ++ char slash ++ b) = Some (a, b).
Proof.
  induction a as [|c a IH]; intros Hd; [reflexivity|].
  cbn [all_chars] in Hd. apply andb_true_iff in Hd. destruct Hd as [Hc Ha].
  cbn [append cut].
  destruct (Ascii.eqb c slash) eqn:Hslash.
  - apply Ascii.eqb_eq in Hslash. subst c. vm_compute in Hc. discriminate.
  - change (a ++ String slash b) with (a ++ char slash ++ b).
    rewrite (IH Ha). reflexivity.
Qed.


(** X22: a majority rate of zero (most clips unreadable, say) is no target
    at all: the clip is transcoded exactly as with no target rate, without
    -r and without a rate in the output name. *)
Theorem zero_majority_changes_no_rate (E : Env) (input : Path) (majority : pynum)
    (w : world) :
  num_val majority = 0%Qc ->
  transcode_video E input (Some majority) w = transcode_video E input None w
  /\ transcode_command E input (Some majority)
     = ["ffmpeg"; "-y"; "-i"; input; "-c:v"; "h264_nvenc";
        "-c:a"; "aac"; "-b:a"; "128k";
        joinpath TRANSCODED_DIR (stem input ++ "_h264.mp4")].
Proof.
  intros Hzero.
  assert (Hwanted : wanted_fps (Some majority) = None).
  { unfold wanted_fps, num_truthy. rewrite Hzero. reflexivity. }
  unfold transcode_video, transcode_command, transcode_output.
  rewrite Hwanted. split; reflexivity.
Qed.

(** create_concatenation_list replaces the manifest and touches nothing
    else: what it leaves on disk does not depend on an earlier manifest, and
    every other file is as before. *)
Lemma manifest_is_overwritten (earlier videos : list Path) (w : world) (p : Path) :
  disk (snd (create_concatenation_list videos
               (snd (create_concatenation_list earlier w)))) p
  = disk (snd (create_concatenation_list videos w)) p
  /\ (p <> concat_list_path ->
      disk (snd (create_concatenation_list videos w)) p = disk w p)
  /\ invocations (snd (create_concatenation_list videos w)) = invocations w.
Proof.
  unfold create_concatenation_list. simpl. unfold write_file.
  destruct (String.eqb_spec p concat_list_path) as [Heq | Hne].
  - repeat split. intros H. contradiction.
  - repeat split.
Qed.

(** ** The further properties on sample projects *)



Lemma no_video_stream_reads_as_rate_zero_witness :
  exists info,
    get_media_info (sample_env working_ffmpeg) no_files sample_song = Ok info
    /\ fps info = None /\ video_codec info = None
    /\ info_fps info = PyInt 0
    /\ probed_rates (sample_env working_ffmpeg) no_files [sample_song] = Ok [PyInt 0].
Proof.
  apply (no_video_stream_reads_as_rate_zero (sample_env working_ffmpeg) no_files
           sample_song
           [("streams",
             PList [PDict [("codec_type", PStr "audio"); ("codec_name", PStr "mp3")]]);
            ("format", PDict [("duration", PNum (PyFloat (Q2Qc (30 # 1))))])]
           [PDict [("codec_type", PStr "audio"); ("codec_name", PStr "mp3")]]).
  - reflexivity.
  - reflexivity.
  - reflexivity.
Defined.

Lemma majority_is_first_most_frequent_witness :
  exists (is_compatible : bool) (majority : pynum) (before after : list pynum),
    find_majority_frame_rate (sample_env working_ffmpeg) sample_disk
      [clip_c; clip_a] = Ok (is_compatible, majority)
    /\ [twenty_five; thirty] = (before ++ majority :: after)%list
    /\ (forall x, In x [twenty_five; thirty] ->
                  occurrences x [twenty_five; thirty]
                  <= occurrences majority [twenty_five; thirty])
    /\ (forall y, In y before ->
                  occurrences y [twenty_five; thirty]
                  < occurrences majority [twenty_five; thirty]).
Proof.
  apply (majority_is_first_most_frequent (sample_env working_ffmpeg) sample_disk
           [clip_c; clip_a] [twenty_five; thirty]).
  - simpl. lia.
  - vm_compute. reflexivity.
Defined.

Lemma analyzer_raises_iff_probe_raises_witness :
  find_majority_frame_rate (sample_env working_ffmpeg) sample_disk
    [clip_a; sample_clip "still.mp4"; clip_b] = Raise ZeroDivisionError.
Proof.
  apply (analyzer_raises_iff_probe_raises (sample_env working_ffmpeg) sample_disk
           [clip_a; sample_clip "still.mp4"; clip_b] ZeroDivisionError).
  vm_compute. reflexivity.
Defined.

Lemma music_is_first_audio_entry_witness :
  exists before after,
    [joinpath MUSIC_DIR "cover.jpg"; joinpath MUSIC_DIR "zebra.MP3"; sample_song]
    = (before ++ joinpath MUSIC_DIR "zebra.MP3" :: after)%list
    /\ Forall (fun f => is_music f = false) before
    /\ is_music (joinpath MUSIC_DIR "zebra.MP3") = true
    /\ [sample_song] = discover_music after.
Proof.
  apply (music_is_first_audio_entry
           [joinpath MUSIC_DIR "cover.jpg"; joinpath MUSIC_DIR "zebra.MP3";
            sample_song]).
  vm_compute. reflexivity.
Defined.

Lemma run_without_videos_does_nothing_witness :
  main (project_env working_ffmpeg
          [sample_clip "Music"; sample_clip "notes.txt";
           sample_clip "final_video.mp4"]
          [sample_song])
       sample_world
  = (Ok tt, sample_world).
Proof.
  apply (run_without_videos_does_nothing _ sample_world
           [sample_clip "Music"; sample_clip "notes.txt";
            sample_clip "final_video.mp4"]).
  - reflexivity.
  - vm_compute. reflexivity.
Defined.

Lemma run_without_music_does_nothing_witness :
  main (project_env working_ffmpeg
          [sample_clip "still.mp4"; clip_a]
          [joinpath MUSIC_DIR "cover.jpg"])
       sample_world
  = (Ok tt, sample_world).
Proof.
  apply (run_without_music_does_nothing _ sample_world
           [sample_clip "still.mp4"; clip_a] [joinpath MUSIC_DIR "cover.jpg"]).
  - reflexivity.
  - vm_compute. discriminate.
  - reflexivity.
  - vm_compute. reflexivity.
Defined.

Lemma raising_probe_aborts_run_witness :
  main (project_env working_ffmpeg [sample_clip "still.mp4"; clip_a] [sample_song])
       sample_world
  = (Raise ZeroDivisionError, sample_world).
Proof.
  apply (raising_probe_aborts_run _ sample_world
           [sample_clip "still.mp4"; clip_a] [sample_song] sample_song []).
  - reflexivity.
  - vm_compute. discriminate.
  - reflexivity.
  - vm_compute. reflexivity.
  - vm_compute. reflexivity.
Defined.

Lemma compatible_run_launches_one_merge_witness :
  let E := project_env working_ffmpeg [clip_b; clip_a] [sample_song] in
  fst (main E sample_world) = Ok tt
  /\ List.length (invocations (snd (main E sample_world))) = 1.
Proof.
  intros E.
  set (merged := merge_videos_with_music E concat_list_path (Some sample_song)
                   OUTPUT_PATH false
                   (snd (create_concatenation_list [clip_a; clip_b] sample_world))).
  assert (Hmerged : merged = (Ok tt, snd merged)).
  { apply pair_of_fst. vm_compute. reflexivity. }
  destruct (compatible_run_launches_one_merge E sample_world (snd merged)
              [clip_b; clip_a] [sample_song] sample_song [] thirty)
    as (Hmain & has_music & d & Hlog).
  - reflexivity.
  - vm_compute. discriminate.
  - reflexivity.
  - vm_compute. reflexivity.
  - vm_compute. reflexivity.
  - change (discover_videos [clip_b; clip_a]) with [clip_a; clip_b]. exact Hmerged.
  - rewrite Hmain. split; [reflexivity|]. cbn [snd]. rewrite Hlog. reflexivity.
Defined.

Lemma music_probe_exception_escapes_witness :
  let E := project_env working_ffmpeg [clip_b; clip_a] [cover_song] in
  fst (main E cover_world) = Raise ZeroDivisionError
  /\ invocations (snd (main E cover_world)) = [].
Proof.
  intros E.
  destruct (music_probe_exception_escapes E cover_world
              [clip_b; clip_a] [cover_song] cover_song [] thirty ZeroDivisionError)
    as (Hmain & Hlog).
  - reflexivity.
  - vm_compute. discriminate.
  - reflexivity.
  - vm_compute. reflexivity.
  - vm_compute. reflexivity.
  - vm_compute. reflexivity.
  - vm_compute. reflexivity.
  - discriminate.
  - rewrite Hmain. split; [reflexivity | exact Hlog].
Defined.

Lemma merge_without_music_is_plain_witness :
  invocations
    (snd (merge_videos_with_music (sample_env working_ffmpeg) concat_list_path
            (Some (joinpath MUSIC_DIR "gone.mp3")) OUTPUT_PATH false sample_world))
  = [["ffmpeg"; "-y"; "-f"; "concat"; "-safe"; "0"; "-i"; concat_list_path;
      "-c:v"; "copy"; "-c:a"; "aac"; OUTPUT_PATH]].
Proof.
  rewrite (merge_without_music_is_plain (sample_env working_ffmpeg) concat_list_path
             (Some (joinpath MUSIC_DIR "gone.mp3")) OUTPUT_PATH false sample_world).
  - rewrite run_ffmpeg_log. reflexivity.
  - vm_compute. reflexivity.
Defined.

Lemma merge_with_unreadable_music_uses_shortest_witness :
  invocations
    (snd (merge_videos_with_music (sample_env working_ffmpeg) concat_list_path
            (Some noise_song) OUTPUT_PATH true cover_world))
  = [["ffmpeg"; "-y"; "-f"; "concat"; "-safe"; "0"; "-i"; concat_list_path;
      "-i"; noise_song; "-map"; "0:v"; "-map"; "1:a"; "-shortest";
      "-c:v"; "h264_nvenc"; "-c:a"; "aac"; "-preset"; "p5"; OUTPUT_PATH]].
Proof.
  rewrite (merge_with_unreadable_music_uses_shortest (sample_env working_ffmpeg)
             concat_list_path noise_song OUTPUT_PATH true cover_world).
  - rewrite run_ffmpeg_log. reflexivity.
  - vm_compute. reflexivity.
  - vm_compute. reflexivity.
Defined.

Lemma same_stem_is_transcoded_once_witness :
  let E := sample_env working_ffmpeg in
  let first := transcode_video E clip_a (Some thirty) sample_world in
  transcode_video E (sample_clip "a.mov") (Some thirty) (snd first)
  = (Ok (transcode_output E clip_a (Some thirty)), snd first).
Proof.
  intros E first.
  apply (same_stem_is_transcoded_once E clip_a (sample_clip "a.mov") (Some thirty)
           sample_world (snd first) (transcode_output E clip_a (Some thirty))).
  - vm_compute. reflexivity.
  - intros fs fs' Hrun. unfold E, sample_env, working_ffmpeg in Hrun. simpl in Hrun.
    inversion Hrun. vm_compute. reflexivity.
  - apply pair_of_fst. vm_compute. reflexivity.
Defined.

Lemma failed_encode_output_is_reused_witness :
  let E := sample_env littering_ffmpeg in
  exists w1,
    transcode_video E clip_a None sample_world = (Raise RuntimeError, w1)
    /\ transcode_video E clip_a None w1 = (Ok (transcode_output E clip_a None), w1)
    /\ invocations w1
       = (invocations sample_world ++ [transcode_command E clip_a None])%list.
Proof.
  intros E.
  apply (failed_encode_output_is_reused E clip_a None sample_world 1
           (write_file sample_disk (transcode_output E clip_a None) "partial")).
  - vm_compute. reflexivity.
  - reflexivity.
  - discriminate.
  - unfold path_exists, write_file. rewrite String.eqb_refl. reflexivity.
Defined.


Lemma sample_outputs_are_fresh (tool : list string -> filesystem -> tool_exit * filesystem)
    (file : string) (target : option pynum) :
  path_exists sample_disk (transcode_output (sample_env tool) (sample_clip file) target)
  = false.
Proof.
  unfold path_exists, sample_disk, write_file, no_files.
  destruct (String.eqb_spec
              (transcode_output (sample_env tool) (sample_clip file) target)
              sample_song) as [Heq|]; [|reflexivity].
  exfalso. unfold transcode_output, sample_song, joinpath in Heq.
  unfold TRANSCODED_DIR, MUSIC_DIR, joinpath, VIDEO_DIR in Heq.
  simpl in Heq. discriminate Heq.
Qed.

Lemma run_without_usable_ffmpeg_returns_witness :
  exists w',
    main (sample_env absent_ffmpeg) sample_world = (Ok tt, w')
    /\ (forall p, p <> concat_list_path -> disk w' p = disk sample_world p)
    /\ exists commands,
         invocations w' = (invocations sample_world ++ commands)%list
         /\ List.length (merges commands) <= 1
         /\ List.length commands <= 1 + 2.
Proof.
  apply (run_without_usable_ffmpeg_returns (sample_env absent_ffmpeg) sample_world
           [sample_clip "b.mp4"; sample_clip "a.mp4"; sample_clip "Music";
            sample_clip "final_video.mp4"]
           [sample_song] sample_song []).
  - intros command fs. split; [reflexivity | discriminate].
  - reflexivity.
  - vm_compute. discriminate.
  - reflexivity.
  - vm_compute. reflexivity.
  - intros fs v [<- | [<- | []]]; eexists; vm_compute; reflexivity.
  - intros fs. eexists. vm_compute. reflexivity.
  - intros v t [<- | [<- | []]]; apply sample_outputs_are_fresh.
Defined.


Lemma apostrophe_is_lost_reading_back_witness :
  manifest_entry (manifest_line (sample_clip "John's clip.mp4"))
  <> as_posix (sample_clip "John's clip.mp4")
  /\ no_quote (manifest_entry (manifest_line (sample_clip "John's clip.mp4"))) = true.
Proof.
  apply (apostrophe_is_lost_reading_back (sample_clip "John's clip.mp4")).
  vm_compute. reflexivity.
Defined.


Lemma zero_majority_changes_no_rate_witness :
  let E := sample_env working_ffmpeg in
  transcode_video E clip_a (Some (PyInt 0)) sample_world
  = transcode_video E clip_a None sample_world
  /\ transcode_command E clip_a (Some (PyInt 0))
     = ["ffmpeg"; "-y"; "-i"; clip_a; "-c:v"; "h264_nvenc";
        "-c:a"; "aac"; "-b:a"; "128k";
        joinpath TRANSCODED_DIR (stem clip_a ++ "_h264.mp4")].
Proof.
  intros E.
  apply (zero_majority_changes_no_rate E clip_a (PyInt 0) sample_world).
  reflexivity.
Defined.

(** The sample calls end to end: the total read back from the manifest of
    three clips of 12 seconds, and a manifest line with an apostrophe. *)
Example sample_total_duration :
  calculate_total_duration (sample_env working_ffmpeg) sample_path_of_text
    concat_list_path
    (disk (snd (create_concatenation_list [clip_a; clip_b; clip_c] sample_world)))
  = Ok (Q2Qc (36 # 1))
  /\ manifest_entry (manifest_line (sample_clip "John's clip.mp4"))
     = "C:/Users/Ryzen 5500/Desktop/Tryhard songs/Training/Johns clip.mp4".
Proof. split; vm_compute; reflexivity. Qed.
